(** * Click2Eat report service: the five admin reports

    A shallow embedding of [src/controller/report.controller.js] together
    with the Mongoose schemas it reads ([models/order.model.js] and the
    order-item schema).

    Every report is an aggregation pipeline handed to [Order.aggregate].
    The pipeline stages used by the controller ([$match], [$lookup],
    [$addFields]/[$arrayElemAt], [$unwind], [$group], [$project], [$sort])
    are embedded as list functions, one stage after the other, in the order
    in which the controller lists them.

    Conventions of the embedding:
    - a BSON [Number] is a [Z] (exact arithmetic, no rounding);
    - an [ObjectId] is an [N];
    - a [Date] is a [Z], the milliseconds since 1970-01-01T00:00:00Z;
    - a field that may be missing from a document is an [option];
    - a collection is the list of its documents in natural (scan) order, and
      [$group] emits its groups in order of first appearance. *)

From Stdlib Require Import ZArith List String Ascii Lia.
From stdpp Require Import base option list gmap strings sorting.

Local Open Scope string_scope.
Local Open Scope Z_scope.
Local Open Scope list_scope.

(** ** Documents *)

Definition ObjectId := N.

(** A scalar read off a document by field name. *)
Inductive Value :=
| VId (i : ObjectId)
| VStr (s : string)
| VNum (n : Z)
| VDate (ms : Z).

(** A document of the [orderitems] collection.  [OrderItemsSchema] declares
    order_id, product_id, quantity, unit_price, total_price, and the two
    timestamps; the pipelines read the stored documents, not the schema, so
    a document may store values under paths the schema does not declare
    ([other]).  A document written through the schema has none. *)
Module OrderItems.
Record t := mk {
  _id : ObjectId;
  order_id : ObjectId;
  product_id : string;
  quantity : Z;
  unit_price : Z;
  total_price : Z;
  createdAt : Z;
  updatedAt : Z;
  other : list (string * Value)
}.

Fixpoint stored (f : string) (kvs : list (string * Value)) : option Value :=
  match kvs with
  | [] => None
  | (k, v) :: kvs' => if decide (f = k) then Some v else stored f kvs'
  end.

(** The field path ["$orderItems.<f>"]: the value the document stores under
    [f], or nothing when it stores none. *)
Definition field (f : string) (it : t) : option Value :=
  if decide (f = "_id") then Some (VId (_id it))
  else if decide (f = "order_id") then Some (VId (order_id it))
  else if decide (f = "product_id") then Some (VStr (product_id it))
  else if decide (f = "quantity") then Some (VNum (quantity it))
  else if decide (f = "unit_price") then Some (VNum (unit_price it))
  else if decide (f = "total_price") then Some (VNum (total_price it))
  else if decide (f = "createdAt") then Some (VDate (createdAt it))
  else if decide (f = "updatedAt") then Some (VDate (updatedAt it))
  else stored f (other it).
End OrderItems.

(** [OrderSchema], restricted to the fields some pipeline reads. *)
Module Order.
Record t := mk {
  _id : ObjectId;
  customer_id : ObjectId;
  items : list ObjectId;
  total_price : Z;
  status : string;
  createdAt : Z
}.
End Order.

(** Modelled from the spec: the Customer entity (identifier, full name,
    email, phone); its schema file is not part of the sources. *)
Module Customer.
Record t := mk {
  _id : ObjectId;
  fullName : string;
  email : string;
  phone : string
}.
End Customer.

(** Modelled from the spec: a document of the [users] collection, which the
    daily report joins; only [_id] and [name] are read, and [name] may be
    missing. *)
Module User.
Record t := mk {
  _id : ObjectId;
  name : option string
}.
End User.

(** The four collections the pipelines read, under their collection names. *)
Module DB.
Record t := mk {
  orders : list Order.t;
  orderitems : list OrderItems.t;
  users : list User.t;
  customers : list Customer.t
}.
End DB.

(** ** Aggregation stages *)

(** [$match: { status: { $in: allowed } }] *)
Definition match_status (allowed : list string) (docs : list Order.t)
  : list Order.t :=
  filter (λ o, Order.status o ∈ allowed) docs.

(** [$lookup] with a scalar [localField]: the documents of [from] whose
    [foreignField] equals it. *)
Definition lookup_eq {B K} `{EqDecision K}
    (foreignField : B → K) (from : list B) (k : K) : list B :=
  filter (λ b, foreignField b = k) from.

(** [$lookup] with an array [localField]: the documents of [from] whose
    [foreignField] equals some element of the array. *)
Definition lookup_in {B K} `{EqDecision K}
    (foreignField : B → K) (from : list B) (ks : list K) : list B :=
  filter (λ b, foreignField b ∈ ks) from.

(** [$unwind]: one output document per element of the array field; a
    document whose array is empty gives none. *)
Definition unwind {A B C} (arr : A → list B) (set : A → B → C)
    (docs : list A) : list C :=
  docs ≫= (λ d, set d <$> arr d).

(** [$sum] over an array of numbers. *)
Definition sumZ (l : list Z) : Z := fold_left Z.add l 0.
Arguments sumZ : simpl never.

(** [$group]: the documents are consumed one by one; the first document of a
    key opens its group ([init]), every later one updates the group's
    accumulators ([step]). *)
Section Group.
Context {Doc K Acc : Type} `{EqDecision K}.
Variable key : Doc → K.
Variable init : Doc → Acc.
Variable step : Acc → Doc → Acc.

Fixpoint upsert (k : K) (d : Doc) (tbl : list (K * Acc)) : list (K * Acc) :=
  match tbl with
  | [] => [(k, init d)]
  | (k', a) :: tbl' =>
      if decide (k = k') then (k', step a d) :: tbl'
      else (k', a) :: upsert k d tbl'
  end.

Definition group (docs : list Doc) : list (K * Acc) :=
  fold_left (λ tbl d, upsert (key d) d tbl) docs [].

Fixpoint assoc (k : K) (tbl : list (K * Acc)) : option Acc :=
  match tbl with
  | [] => None
  | (k', a) :: tbl' => if decide (k = k') then Some a else assoc k tbl'
  end.
End Group.

(** [$sort]: by a string key or by a number key, ascending ([1]) or
    descending ([-1]).  Strings compare byte by byte. *)
Definition str_le (s1 s2 : string) : Prop := String.leb s1 s2 = true.

Definition str_desc {A} (k : A → string) (x y : A) : Prop := str_le (k y) (k x).
Definition str_asc {A} (k : A → string) (x y : A) : Prop := str_le (k x) (k y).
Definition num_desc {A} (k : A → Z) (x y : A) : Prop := k y ≤ k x.

#[global] Instance str_le_dec : RelDecision str_le.
Proof. intros s1 s2. unfold str_le. apply _. Defined.

#[global] Instance str_desc_dec {A} (k : A → string) : RelDecision (str_desc k).
Proof. intros x y. unfold str_desc. apply _. Defined.

#[global] Instance str_asc_dec {A} (k : A → string) : RelDecision (str_asc k).
Proof. intros x y. unfold str_asc. apply _. Defined.

#[global] Instance num_desc_dec {A} (k : A → Z) : RelDecision (num_desc k).
Proof. intros x y. unfold num_desc. apply _. Defined.

Definition sort_str_desc {A} (k : A → string) : list A → list A :=
  merge_sort (str_desc k).

Definition sort_str_asc {A} (k : A → string) : list A → list A :=
  merge_sort (str_asc k).

Definition sort_num_desc {A} (k : A → Z) : list A → list A :=
  merge_sort (num_desc k).

(** ** [$dateToString] *)

(** The proleptic Gregorian date (year, month, day) of a day number counted
    from 1970-01-01, in UTC. *)
Definition civil_from_days (days : Z) : Z * Z * Z :=
  let z := days + 719468 in
  let era := z / 146097 in
  let doe := z mod 146097 in
  let yoe := (doe - doe / 1460 + doe / 36524 - doe / 146096) / 365 in
  let doy := doe - (365 * yoe + yoe / 4 - yoe / 100) in
  let mp := (5 * doy + 2) / 153 in
  let d := doy - (153 * mp + 2) / 5 + 1 in
  let m := if mp <? 10 then mp + 3 else mp - 9 in
  let y := yoe + era * 400 + (if m <=? 2 then 1 else 0) in
  (y, m, d).

Definition civil_of_date (ms : Z) : Z * Z * Z :=
  civil_from_days (ms / 86400000).

Definition digit (n : Z) : ascii :=
  ascii_of_nat (48 + Z.to_nat (n mod 10)).

Definition pad2 (n : Z) : string :=
  String (digit (n / 10)) (String (digit n) EmptyString).

(** [%Y]: four digits.  MongoDB renders the years 0 to 9999 only; the
    embedding is meant for these, and keeps the last four digits of any
    other year. *)
Definition pad4 (n : Z) : string :=
  String (digit (n / 1000)) (String (digit (n / 100)) (pad2 n)).

(** [format: "%Y-%m"] *)
Definition dateToString_Ym (ms : Z) : string :=
  let '(y, m, _) := civil_of_date ms in
  pad4 y +:+ "-" +:+ pad2 m.

(** [format: "%Y-%m-%d"] *)
Definition dateToString_Ymd (ms : Z) : string :=
  let '(y, m, d) := civil_of_date ms in
  pad4 y +:+ "-" +:+ pad2 m +:+ "-" +:+ pad2 d.

Arguments dateToString_Ym : simpl never.
Arguments dateToString_Ymd : simpl never.

(** ** The five pipelines *)

(** *** Daily sales *)
Module Daily.
(** An order after the two [$lookup]s and the [$addFields]: its [items]
    array and its [customer], the element 0 of the joined array. *)
Record Joined := mkJoined {
  j_order : Order.t;
  j_items : list OrderItems.t;
  j_customer : option User.t
}.

Definition join (db : DB.t) (o : Order.t) : Joined :=
  {| j_order := o;
     j_items := lookup_eq OrderItems.order_id (DB.orderitems db) (Order._id o);
     j_customer :=
       head (lookup_eq User._id (DB.users db) (Order.customer_id o)) |}.

(** The document pushed on [orders]. *)
Record Entry := mkEntry {
  customer : option string;
  status : string;
  items : list OrderItems.t;
  total : Z
}.

Definition entry (j : Joined) : Entry :=
  {| customer := j_customer j ≫= User.name;
     status := Order.status (j_order j);
     items := j_items j;
     total := Order.total_price (j_order j) |}.

Record Key := mkKey { date : string }.

#[global] Instance Key_eq_dec : EqDecision Key.
Proof. solve_decision. Defined.

Record Acc := mkAcc {
  acc_orders : list Entry;
  acc_totalOrders : Z;
  acc_totalSales : Z
}.

Definition key (j : Joined) : Key :=
  {| date := dateToString_Ymd (Order.createdAt (j_order j)) |}.

Definition init (j : Joined) : Acc :=
  {| acc_orders := [entry j];
     acc_totalOrders := 1;
     acc_totalSales := Order.total_price (j_order j) |}.

Definition step (a : Acc) (j : Joined) : Acc :=
  {| acc_orders := acc_orders a ++ [entry j];
     acc_totalOrders := acc_totalOrders a + 1;
     acc_totalSales := acc_totalSales a + Order.total_price (j_order j) |}.

Record Bucket := mkBucket {
  _id : Key;
  orders : list Entry;
  totalOrders : Z;
  totalSales : Z
}.

Definition bucket (g : Key * Acc) : Bucket :=
  {| _id := fst g;
     orders := acc_orders (snd g);
     totalOrders := acc_totalOrders (snd g);
     totalSales := acc_totalSales (snd g) |}.

Definition matched (db : DB.t) : list Order.t :=
  match_status ["completed"; "pending"; "confirmed"; "cancelled"]
    (DB.orders db).

Definition pipeline (db : DB.t) : list Bucket :=
  sort_str_desc (λ b, date (_id b))
    (bucket <$> group key init step (join db <$> matched db)).
End Daily.

(** *** Monthly sales *)
Module Monthly.
Record Acc := mkAcc {
  acc_totalOrders : Z;
  acc_totalSales : Z
}.

Definition key (o : Order.t) : string :=
  dateToString_Ym (Order.createdAt o).

Definition init (o : Order.t) : Acc :=
  {| acc_totalOrders := 1; acc_totalSales := Order.total_price o |}.

Definition step (a : Acc) (o : Order.t) : Acc :=
  {| acc_totalOrders := acc_totalOrders a + 1;
     acc_totalSales := acc_totalSales a + Order.total_price o |}.

Record Bucket := mkBucket {
  _id : string;
  totalOrders : Z;
  totalSales : Z
}.

Definition bucket (g : string * Acc) : Bucket :=
  {| _id := fst g;
     totalOrders := acc_totalOrders (snd g);
     totalSales := acc_totalSales (snd g) |}.

Definition matched (db : DB.t) : list Order.t :=
  match_status ["completed"; "pending"; "confirmed"; "cancelled"]
    (DB.orders db).

Definition pipeline (db : DB.t) : list Bucket :=
  sort_str_desc _id (bucket <$> group key init step (matched db)).
End Monthly.

(** The four accumulators shared by the order-status and the user-order
    reports: [$sum: 1], [$sum: { $sum: "$orderItems.quantity" }],
    [$sum: "$total_price"] and [$max: "$createdAt"], over orders joined with
    their [orderItems]. *)
Module Totals.
Record t := mk {
  totalOrders : Z;
  totalItems : Z;
  totalSpent : Z;
  lastOrderDate : Z
}.

Definition Joined : Type := Order.t * list OrderItems.t.

Definition init (j : Joined) : t :=
  {| totalOrders := 1;
     totalItems := sumZ (OrderItems.quantity <$> snd j);
     totalSpent := Order.total_price (fst j);
     lastOrderDate := Order.createdAt (fst j) |}.

Definition step (a : t) (j : Joined) : t :=
  {| totalOrders := totalOrders a + 1;
     totalItems := totalItems a + sumZ (OrderItems.quantity <$> snd j);
     totalSpent := totalSpent a + Order.total_price (fst j);
     lastOrderDate := Z.max (lastOrderDate a) (Order.createdAt (fst j)) |}.
End Totals.

(** The customer summary both reports project. *)
Module Summary.
Record t := mk {
  customer_id : ObjectId;
  fullName : string;
  email : string;
  phone : string;
  totalOrders : Z;
  totalItems : Z;
  totalSpent : Z;
  lastOrderDate : Z
}.

Definition project (a : Totals.t) (c : Customer.t) : t :=
  {| customer_id := Customer._id c;
     fullName := Customer.fullName c;
     email := Customer.email c;
     phone := Customer.phone c;
     totalOrders := Totals.totalOrders a;
     totalItems := Totals.totalItems a;
     totalSpent := Totals.totalSpent a;
     lastOrderDate := Totals.lastOrderDate a |}.
End Summary.

(** *** Order status *)
Module OrderStatus.
Definition matched (db : DB.t) : list Order.t :=
  match_status ["pending"; "completed"; "confirmed"; "cancelled"]
    (DB.orders db).

Definition join (db : DB.t) (o : Order.t) : Totals.Joined :=
  (o, lookup_eq OrderItems.order_id (DB.orderitems db) (Order._id o)).

(** [_id: { status, customerId }] *)
Definition key (j : Totals.Joined) : string * ObjectId :=
  (Order.status (fst j), Order.customer_id (fst j)).

Definition by_status_customer (db : DB.t)
  : list ((string * ObjectId) * Totals.t) :=
  group key Totals.init Totals.step (join db <$> matched db).

(** [$lookup] from [customers], [$unwind: "$customer"], [$project]: a
    document per matching customer, tagged with the group's status. *)
Definition projected (db : DB.t) : list (string * Summary.t) :=
  unwind (λ g : (string * ObjectId) * Totals.t,
            lookup_eq Customer._id (DB.customers db) (snd (fst g)))
         (λ g c, (fst (fst g), Summary.project (snd g) c))
         (by_status_customer db).

(** The final [$group] by status, pushing on [users]. *)
Record Row := mkRow {
  _id : string;
  users : list Summary.t
}.

Definition init (p : string * Summary.t) : list Summary.t := [snd p].
Definition step (us : list Summary.t) (p : string * Summary.t)
  : list Summary.t := us ++ [snd p].

Definition row (g : string * list Summary.t) : Row :=
  {| _id := fst g; users := snd g |}.

Definition pipeline (db : DB.t) : list Row :=
  sort_str_asc _id (row <$> group fst init step (projected db)).

(** [report.forEach((r) => { formatted[r._id] = r.users; })].  The keys are
    statuses that passed the [$match], so each assignment creates or
    overwrites an ordinary property. *)
Definition format (report : list Row) : gmap string (list Summary.t) :=
  fold_left (λ formatted r, <[_id r := users r]> formatted) report ∅.

Definition formatted (db : DB.t) : gmap string (list Summary.t) :=
  format (pipeline db).
End OrderStatus.

(** *** User orders (the customer-order report) *)
Module UserOrder.
Definition matched (db : DB.t) : list Order.t :=
  match_status ["completed"; "confirmed"] (DB.orders db).

(** [localField: "items"] is the order's array of item references. *)
Definition join (db : DB.t) (o : Order.t) : Totals.Joined :=
  (o, lookup_in OrderItems._id (DB.orderitems db) (Order.items o)).

Definition key (j : Totals.Joined) : ObjectId := Order.customer_id (fst j).

Definition by_customer (db : DB.t) : list (ObjectId * Totals.t) :=
  group key Totals.init Totals.step (join db <$> matched db).

Definition projected (db : DB.t) : list Summary.t :=
  unwind (λ g : ObjectId * Totals.t,
            lookup_eq Customer._id (DB.customers db) (fst g))
         (λ g c, Summary.project (snd g) c)
         (by_customer db).

Definition pipeline (db : DB.t) : list Summary.t :=
  sort_num_desc Summary.totalSpent (projected db).
End UserOrder.

(** *** User products (the product-sales report) *)
Module UserProduct.
Definition matched (db : DB.t) : list Order.t :=
  match_status ["completed"; "confirmed"] (DB.orders db).

Definition join (db : DB.t) (o : Order.t) : Order.t * list OrderItems.t :=
  (o, lookup_in OrderItems._id (DB.orderitems db) (Order.items o)).

(** [$unwind: "$orderItems"]: one document per joined item. *)
Definition unwound (db : DB.t) : list (Order.t * OrderItems.t) :=
  unwind snd (λ j it, (fst j, it)) (join db <$> matched db).

Record Row := mkRow {
  _id : string;
  product_id : string;
  name : option Value;
  category : option Value;
  unit_price : Z;
  quantity : Z;
  total_price : Z
}.

Record Acc := mkAcc {
  acc_product_id : string;
  acc_name : option Value;
  acc_category : option Value;
  acc_unit_price : Z;
  acc_quantity : Z;
  acc_total_price : Z
}.

Definition key (u : Order.t * OrderItems.t) : string :=
  OrderItems.product_id (snd u).

(** The [$first] accumulators are set by the first document of a group
    and kept; a missing field gives null. *)
Definition init (u : Order.t * OrderItems.t) : Acc :=
  {| acc_product_id := OrderItems.product_id (snd u);
     acc_name := OrderItems.field "name" (snd u);
     acc_category := OrderItems.field "category" (snd u);
     acc_unit_price := OrderItems.unit_price (snd u);
     acc_quantity := OrderItems.quantity (snd u);
     acc_total_price := OrderItems.total_price (snd u) |}.

Definition step (a : Acc) (u : Order.t * OrderItems.t) : Acc :=
  {| acc_product_id := acc_product_id a;
     acc_name := acc_name a;
     acc_category := acc_category a;
     acc_unit_price := acc_unit_price a;
     acc_quantity := acc_quantity a + OrderItems.quantity (snd u);
     acc_total_price := acc_total_price a + OrderItems.total_price (snd u) |}.

Definition row (g : string * Acc) : Row :=
  {| _id := fst g;
     product_id := acc_product_id (snd g);
     name := acc_name (snd g);
     category := acc_category (snd g);
     unit_price := acc_unit_price (snd g);
     quantity := acc_quantity (snd g);
     total_price := acc_total_price (snd g) |}.

Definition pipeline (db : DB.t) : list Row :=
  sort_num_desc quantity (row <$> group key init step (unwound db)).
End UserProduct.

(** ** The request handlers

    A handler is a computation over the world that either returns the
    response it sends or throws.  The [console.error] calls of the catch
    branches write to the log only and are left out. *)

(** The JavaScript values a decoded token can carry in [req.user]. *)
Inductive JsVal :=
| JsUndefined
| JsNull
| JsBool (b : bool)
| JsNum (n : Z)
| JsStr (s : string).

#[global] Instance JsVal_eq_dec : EqDecision JsVal.
Proof. solve_decision. Defined.

(** What [!v] negates. *)
Definition truthy (v : JsVal) : bool :=
  match v with
  | JsUndefined | JsNull => false
  | JsBool b => b
  | JsNum n => negb (n =? 0)
  | JsStr s => negb (bool_decide (s = ""))
  end.

(** [req.user]: a property the object does not have reads as undefined. *)
Record ReqUser := mkReqUser {
  is_admin : JsVal;
  role : JsVal
}.

Record Request := mkRequest {
  user : option ReqUser
}.

(** The [report] value of a success body. *)
Inductive Payload :=
| PDaily (report : list Daily.Bucket)
| PMonthly (report : list Monthly.Bucket)
| POrderStatus (report : gmap string (list Summary.t))
| PUserOrder (report : list Summary.t)
| PUserProduct (report : list UserProduct.Row).

Inductive Json :=
| JBool (b : bool)
| JString (s : string)
| JReport (p : Payload).

(** A JSON object, as the list of its properties. *)
Definition Body : Type := list (string * Json).

Record Response := mkResponse {
  status : Z;
  body : Body
}.

(** [res.status(code).json(body)], and [res.json(body)], which leaves the
    status at 200. *)
Definition status_json (code : Z) (b : Body) : Response :=
  {| status := code; body := b |}.
Definition json (b : Body) : Response := status_json 200 b.

(** The world a handler runs in: the store, whether it answers, and the
    number of queries issued so far. *)
Record World := mkWorld {
  db : DB.t;
  online : bool;
  queries : nat
}.

Inductive Outcome (A : Type) :=
| Done (a : A)
| Threw.
Arguments Done {A} a.
Arguments Threw {A}.

Definition Handler (A : Type) : Type := World → Outcome A * World.

#[global] Instance Handler_ret : MRet Handler := λ A a w, (Done a, w).

#[global] Instance Handler_bind : MBind Handler := λ A B f m w,
  match m w with
  | (Done a, w') => f a w'
  | (Threw, w') => (Threw, w')
  end.

Definition throw {A} : Handler A := λ w, (Threw, w).

(** [try { body } catch (err) { handler }] *)
Definition try_catch {A} (body handler : Handler A) : Handler A := λ w,
  match body w with
  | (Done a, w') => (Done a, w')
  | (Threw, w') => handler w'
  end.

(** [await Order.aggregate(pipeline)]: one query; it rejects when the store
    does not answer, and reads the collections otherwise. *)
Definition aggregate {A} (pipeline : DB.t → A) : Handler A := λ w,
  let w' := {| db := db w; online := online w; queries := S (queries w) |} in
  if online w then (Done (pipeline (db w)), w') else (Threw, w').

(** [req.user?.is_admin] *)
Definition optional_is_admin (req : Request) : JsVal :=
  match user req with
  | Some u => is_admin u
  | None => JsUndefined
  end.

(** [req.user.role], a TypeError when there is no [req.user]. *)
Definition user_role (req : Request) : Handler JsVal :=
  match user req with
  | Some u => mret (role u)
  | None => throw
  end.

Definition dailySalesReport (req : Request) : Handler Response :=
  try_catch
    (if negb (truthy (optional_is_admin req)) then
       mret (status_json 403 [("error", JString "Access denied")])
     else
       r ← user_role req;
       if decide (r ≠ JsStr "admin") then
         mret (status_json 403 [("message", JString "Forbidden")])
       else
         report ← aggregate Daily.pipeline;
         mret (json [("success", JBool true);
                     ("report", JReport (PDaily report))]))
    (mret (status_json 500 [("error", JString "Report error")])).

Definition monthlySalesReport (req : Request) : Handler Response :=
  try_catch
    (if negb (truthy (optional_is_admin req)) then
       mret (status_json 403 [("error", JString "Access denied")])
     else
       r ← user_role req;
       if decide (r ≠ JsStr "admin") then
         mret (status_json 403 [("message", JString "Forbidden")])
       else
         report ← aggregate Monthly.pipeline;
         mret (json [("success", JBool true);
                     ("report", JReport (PMonthly report))]))
    (mret (status_json 500
             [("error", JString "Failed to generate monthly sales report")])).

Definition orderStatusReport (req : Request) : Handler Response :=
  try_catch
    (if negb (truthy (optional_is_admin req)) then
       mret (status_json 403 [("error", JString "Access denied")])
     else
       r ← user_role req;
       if decide (r ≠ JsStr "admin") then
         mret (status_json 403 [("message", JString "Forbidden")])
       else
         report ← aggregate OrderStatus.pipeline;
         let formatted := OrderStatus.format report in
         mret (json [("success", JBool true);
                     ("report", JReport (POrderStatus formatted))]))
    (mret (status_json 500
             [("error", JString "Failed to generate user report")])).

Definition userOrderReport (req : Request) : Handler Response :=
  try_catch
    (if negb (truthy (optional_is_admin req)) then
       mret (status_json 403 [("error", JString "Access denied")])
     else
       r ← user_role req;
       if decide (r ≠ JsStr "admin") then
         mret (status_json 403 [("message", JString "Forbidden")])
       else
         report ← aggregate UserOrder.pipeline;
         mret (json [("success", JBool true);
                     ("report", JReport (PUserOrder report))]))
    (mret (status_json 500
             [("error", JString "Failed to generate user report")])).

Definition userProductReport (req : Request) : Handler Response :=
  try_catch
    (if negb (truthy (optional_is_admin req)) then
       mret (status_json 403 [("error", JString "Access denied")])
     else
       r ← user_role req;
       if decide (r ≠ JsStr "admin") then
         mret (status_json 403 [("message", JString "Forbidden")])
       else
         report ← aggregate UserProduct.pipeline;
         mret (json [("success", JBool true);
                     ("report", JReport (PUserProduct report))]))
    (mret (status_json 500
             [("error", JString "Failed to generate user product report")])).

(** [module.exports]: the five report operations. *)
Inductive Operation :=
| DailySales
| MonthlySales
| OrderStatusOp
| UserOrders
| UserProducts.

Definition handler (op : Operation) : Request → Handler Response :=
  match op with
  | DailySales => dailySalesReport
  | MonthlySales => monthlySalesReport
  | OrderStatusOp => orderStatusReport
  | UserOrders => userOrderReport
  | UserProducts => userProductReport
  end.

(** [middleware/adminMiddleware.js]: [adminOnly(req, res, next)].  It reads
    [req.user.role] outside any [try], so a request without [req.user]
    throws. *)
Definition adminOnly (req : Request) (next : Handler Response)
  : Handler Response :=
  r ← user_role req;
  if decide (r ≠ JsStr "admin") then
    mret (status_json 403 [("message", JString "Forbidden: Admin only")])
  else
    next.

(** A route of the router, from [adminOnly] on: the middleware, then the
    handler.  ([authenticateTokenAdmin], which runs before and fills in
    [req.user], is not among the sources.) *)
Definition route_behind_auth (op : Operation) (req : Request)
  : Handler Response :=
  adminOnly req (handler op req).

(** The envelopes of the interface. *)
Definition success_envelope (b : Body) : Prop :=
  ∃ p, b = [("success", JBool true); ("report", JReport p)].

Definition failure_envelope (b : Body) : Prop :=
  ∃ msg, b = [("error", JString msg)].

(** ** Vocabulary of the statements *)

(** The calendar day of a timestamp. *)
Definition year_of_date (ms : Z) : Z := fst (fst (civil_of_date ms)).
Definition month_of_date (ms : Z) : Z := snd (fst (civil_of_date ms)).
Definition day_of_date (ms : Z) : Z := snd (civil_of_date ms).

(** Calendar dates (year, month, day) in chronological order. *)
Definition date_le (a b : Z * Z * Z) : Prop :=
  a.1.1 < b.1.1
  ∨ (a.1.1 = b.1.1 ∧ (a.1.2 < b.1.2 ∨ (a.1.2 = b.1.2 ∧ a.2 ≤ b.2))).

(** The years that [%Y] renders. *)
Definition renders (ms : Z) : Prop := 0 ≤ year_of_date ms < 10000.

(** The month part ["YYYY-MM"] of a date string ["YYYY-MM-DD"]. *)
Definition month_prefix (d : string) : string := substring 0 7 d.

(** Strictly after, in the order of [$sort] on strings. *)
Definition str_gt (s1 s2 : string) : Prop := str_le s2 s1 ∧ s1 ≠ s2.

(** The orders that pass the status filter and were created on day [d],
    in scan order. *)
Definition orders_of_day (db : DB.t) (d : string) : list Order.t :=
  filter (λ o, dateToString_Ymd (Order.createdAt o) = d)
    (filter (λ o, Order.status o ∈
                    ["completed"; "pending"; "confirmed"; "cancelled"])
       (DB.orders db)).

(** The orders that pass the status filter and were created in month [m]. *)
Definition orders_of_month (db : DB.t) (m : string) : list Order.t :=
  filter (λ o, dateToString_Ym (Order.createdAt o) = m)
    (filter (λ o, Order.status o ∈
                    ["completed"; "pending"; "confirmed"; "cancelled"])
       (DB.orders db)).

(** The bucket of month [m], written out from the orders of the month. *)
Definition month_bucket (db : DB.t) (m : string) : Monthly.Bucket :=
  {| Monthly._id := m;
     Monthly.totalOrders := Z.of_nat (length (orders_of_month db m));
     Monthly.totalSales := sumZ (Order.total_price <$> orders_of_month db m) |}.

(** The bucket of day [d], written out from the orders of the day. *)
Definition day_bucket (db : DB.t) (d : string) : Daily.Bucket :=
  {| Daily._id := {| Daily.date := d |};
     Daily.orders := (λ o, Daily.entry (Daily.join db o)) <$> orders_of_day db d;
     Daily.totalOrders := Z.of_nat (length (orders_of_day db d));
     Daily.totalSales := sumZ (Order.total_price <$> orders_of_day db d) |}.

(** The caller a handler lets through: [req.user] is there, its [is_admin]
    is truthy and its [role] is the string ["admin"]. *)
Definition authorized (req : Request) : Prop :=
  ∃ u, user req = Some u ∧ truthy (is_admin u) = true ∧ role u = JsStr "admin".

#[global] Instance authorized_dec (req : Request) : Decision (authorized req).
Proof.
  unfold authorized. destruct (user req) as [u|].
  - destruct (truthy (is_admin u)) eqn:Ha.
    + destruct (decide (role u = JsStr "admin")) as [Hr|Hr].
      * left. eauto.
      * right. intros (u' & [= <-] & _ & Hr'). contradiction.
    + right. intros (u' & [= <-] & Ha' & _). congruence.
  - right. intros (u' & [=] & _).
Defined.

(** What each operation reports, and the message of its catch branch. *)
Definition payload (op : Operation) (d : DB.t) : Payload :=
  match op with
  | DailySales => PDaily (Daily.pipeline d)
  | MonthlySales => PMonthly (Monthly.pipeline d)
  | OrderStatusOp => POrderStatus (OrderStatus.formatted d)
  | UserOrders => PUserOrder (UserOrder.pipeline d)
  | UserProducts => PUserProduct (UserProduct.pipeline d)
  end.

Definition failure_message (op : Operation) : string :=
  match op with
  | DailySales => "Report error"
  | MonthlySales => "Failed to generate monthly sales report"
  | OrderStatusOp => "Failed to generate user report"
  | UserOrders => "Failed to generate user report"
  | UserProducts => "Failed to generate user product report"
  end.

Definition access_denied : Response :=
  status_json 403 [("error", JString "Access denied")].

Definition forbidden : Response :=
  status_json 403 [("message", JString "Forbidden")].

Definition queried (w : World) : World :=
  {| db := db w; online := online w; queries := S (queries w) |}.

(** The interface sentence on envelopes, as it is worded: the response is a
    success envelope, or a failure envelope under status 403 or 500. *)
Definition responds_with_envelope (op : Operation) (req : Request)
    (w : World) : Prop :=
  ∃ resp w',
    handler op req w = (Done resp, w')
    ∧ ((status resp = 200 ∧ success_envelope (body resp))
       ∨ (status resp = 403 ∧ failure_envelope (body resp))
       ∨ (status resp = 500 ∧ failure_envelope (body resp))).

Definition no_orders : DB.t :=
  {| DB.orders := []; DB.orderitems := []; DB.users := [];
     DB.customers := [] |}.

(** ** Sample data *)

(** The scenario of the specification: one completed order of 100, created
    on 2024-03-05, with one item (two of product P1 at 50), for Alice. *)
Definition alice : Customer.t :=
  {| Customer._id := 10%N; Customer.fullName := "Alice";
     Customer.email := "alice@example.com"; Customer.phone := "012345678" |}.

Definition alice_item : OrderItems.t :=
  {| OrderItems._id := 100%N; OrderItems.order_id := 1%N;
     OrderItems.product_id := "P1"; OrderItems.quantity := 2;
     OrderItems.unit_price := 50; OrderItems.total_price := 100;
     OrderItems.createdAt := 1709640000000;
     OrderItems.updatedAt := 1709640000000;
     OrderItems.other := [] |}.

Definition alice_order : Order.t :=
  {| Order._id := 1%N; Order.customer_id := 10%N; Order.items := [100%N];
     Order.total_price := 100; Order.status := "completed";
     Order.createdAt := 1709640000000 |}.

Definition scenario : DB.t :=
  {| DB.orders := [alice_order]; DB.orderitems := [alice_item];
     DB.users := []; DB.customers := [alice] |}.

(** A larger store: Alice with a completed and a pending order, an order of
    a customer (11) of whom there is no record, and a cancelled order of
    Bob. *)
Definition bob : Customer.t :=
  {| Customer._id := 12%N; Customer.fullName := "Bob";
     Customer.email := "bob@example.com"; Customer.phone := "098765432" |}.

Definition item_101 : OrderItems.t :=
  {| OrderItems._id := 101%N; OrderItems.order_id := 1%N;
     OrderItems.product_id := "P2"; OrderItems.quantity := 1;
     OrderItems.unit_price := 50; OrderItems.total_price := 50;
     OrderItems.createdAt := 1709640000000;
     OrderItems.updatedAt := 1709640000000;
     OrderItems.other := [] |}.

Definition item_102 : OrderItems.t :=
  {| OrderItems._id := 102%N; OrderItems.order_id := 2%N;
     OrderItems.product_id := "P1"; OrderItems.quantity := 4;
     OrderItems.unit_price := 10; OrderItems.total_price := 40;
     OrderItems.createdAt := 1709663400000;
     OrderItems.updatedAt := 1709663400000;
     OrderItems.other := [] |}.

Definition order_1 : Order.t :=
  {| Order._id := 1%N; Order.customer_id := 10%N; Order.items := [100%N; 101%N];
     Order.total_price := 150; Order.status := "completed";
     Order.createdAt := 1709640000000 |}.

Definition order_2 : Order.t :=
  {| Order._id := 2%N; Order.customer_id := 11%N; Order.items := [102%N];
     Order.total_price := 40; Order.status := "confirmed";
     Order.createdAt := 1709663400000 |}.

Definition order_3 : Order.t :=
  {| Order._id := 3%N; Order.customer_id := 10%N; Order.items := [];
     Order.total_price := 30; Order.status := "pending";
     Order.createdAt := 1711929600000 |}.

Definition order_4 : Order.t :=
  {| Order._id := 4%N; Order.customer_id := 12%N; Order.items := [];
     Order.total_price := 25; Order.status := "cancelled";
     Order.createdAt := 1712048400000 |}.

Definition sample : DB.t :=
  {| DB.orders := [order_1; order_2; order_3; order_4];
     DB.orderitems := [alice_item; item_101; item_102];
     DB.users := [{| User._id := 10%N; User.name := Some "alice" |}];
     DB.customers := [alice; bob] |}.

(** An order-item that also stores the name and the category of its
    product, as a writer other than the schema can leave it, and a store
    with one completed order of it. *)
Definition named_item : OrderItems.t :=
  {| OrderItems._id := 100%N; OrderItems.order_id := 1%N;
     OrderItems.product_id := "P1"; OrderItems.quantity := 2;
     OrderItems.unit_price := 50; OrderItems.total_price := 100;
     OrderItems.createdAt := 1709640000000;
     OrderItems.updatedAt := 1709640000000;
     OrderItems.other := [("name", VStr "Burger");
                          ("category", VStr "Food")] |}.

Definition named_store : DB.t :=
  {| DB.orders := [alice_order]; DB.orderitems := [named_item];
     DB.users := []; DB.customers := [alice] |}.

Definition admin_request : Request :=
  {| user := Some {| is_admin := JsBool true; role := JsStr "admin" |} |}.

Definition staff_request : Request :=
  {| user := Some {| is_admin := JsBool true; role := JsStr "staff" |} |}.

Definition anonymous_request : Request := {| user := None |}.

(** ** Checks on concrete data *)

Example date_2024_03_05 :
  dateToString_Ymd 1709640000000 = "2024-03-05"
  ∧ dateToString_Ym 1709640000000 = "2024-03"
  ∧ dateToString_Ymd 0 = "1970-01-01"
  ∧ dateToString_Ymd (-1) = "1969-12-31"
  ∧ dateToString_Ymd 951782400000 = "2000-02-29".
Proof. repeat split; vm_compute; reflexivity. Qed.

(** ** Facts about the stages *)

Lemma sumZ_acc (l : list Z) (a : Z) : fold_left Z.add l a = a + sumZ l.
Proof.
  unfold sumZ. revert a. induction l as [|x l IH]; intros a; simpl.
  - lia.
  - rewrite IH, (IH (0 + x)). lia.
Qed.

Lemma sumZ_nil : sumZ [] = 0.
Proof. reflexivity. Qed.

Lemma sumZ_cons (x : Z) (l : list Z) : sumZ (x :: l) = x + sumZ l.
Proof. unfold sumZ at 1. simpl. rewrite sumZ_acc. lia. Qed.

Lemma sumZ_app (l1 l2 : list Z) : sumZ (l1 ++ l2) = sumZ l1 + sumZ l2.
Proof.
  induction l1 as [|x l1 IH]; simpl.
  - rewrite sumZ_nil. lia.
  - rewrite !sumZ_cons, IH. lia.
Qed.

Lemma sumZ_Permutation (l1 l2 : list Z) : l1 ≡ₚ l2 → sumZ l1 = sumZ l2.
Proof.
  induction 1 as [|x l1 l2 _ IH|x y l|l1 l2 l3 _ IH1 _ IH2].
  - reflexivity.
  - rewrite !sumZ_cons, IH. reflexivity.
  - rewrite !sumZ_cons. lia.
  - congruence.
Qed.

Lemma sumZ_ones {A} (l : list A) : sumZ ((λ _, 1) <$> l) = Z.of_nat (length l).
Proof.
  induction l as [|x l IH].
  - reflexivity.
  - rewrite fmap_cons, sumZ_cons, IH, length_cons. lia.
Qed.

Section GroupFacts.
Context {Doc K Acc : Type} `{EqDecision K}.
Variable key : Doc → K.
Variable init : Doc → Acc.
Variable step : Acc → Doc → Acc.

Lemma assoc_upsert (k k' : K) (d : Doc) (tbl : list (K * Acc)) :
  assoc k (upsert init step k' d tbl) =
    if decide (k = k')
    then Some (match assoc k' tbl with
               | Some a => step a d
               | None => init d
               end)
    else assoc k tbl.
Proof.
  induction tbl as [|[k0 a0] tbl IH]; simpl.
  - reflexivity.
  - destruct (decide (k' = k0)) as [->|Hne]; simpl.
    + destruct (decide (k = k0)); reflexivity.
    + rewrite IH. destruct (decide (k = k0)) as [->|]; [|reflexivity].
      destruct (decide (k0 = k')); congruence.
Qed.

Lemma keys_upsert (k : K) (d : Doc) (tbl : list (K * Acc)) :
  (upsert init step k d tbl).*1 =
    if decide (k ∈ tbl.*1) then tbl.*1 else tbl.*1 ++ [k].
Proof.
  induction tbl as [|[k0 a0] tbl IH].
  - case_decide as Hin; [|reflexivity]. by apply elem_of_nil in Hin.
  - cbn [upsert]. rewrite !fmap_cons. cbn [fst].
    destruct (decide (k = k0)) as [->|Hne].
    + rewrite fmap_cons. cbn [fst].
      rewrite decide_True by apply list_elem_of_here. reflexivity.
    + rewrite fmap_cons, IH. cbn [fst].
      destruct (decide (k ∈ tbl.*1)) as [Hin|Hnin].
      * rewrite decide_True by (apply list_elem_of_further, Hin). reflexivity.
      * rewrite decide_False; [reflexivity|].
        rewrite elem_of_cons. tauto.
Qed.

Lemma group_snoc (docs : list Doc) (d : Doc) :
  group key init step (docs ++ [d]) =
    upsert init step (key d) d (group key init step docs).
Proof. unfold group. rewrite fold_left_app. reflexivity. Qed.

Lemma NoDup_keys_group (docs : list Doc) :
  NoDup (group key init step docs).*1.
Proof.
  induction docs as [|d docs IH] using rev_ind.
  - constructor.
  - rewrite group_snoc, keys_upsert. case_decide; [exact IH|].
    apply NoDup_app. split; [exact IH|]. split.
    + intros x Hx ->%list_elem_of_singleton. contradiction.
    + apply NoDup_singleton.
Qed.

Lemma elem_of_keys_group (docs : list Doc) (k : K) :
  k ∈ (group key init step docs).*1 ↔ ∃ d, d ∈ docs ∧ key d = k.
Proof.
  induction docs as [|d docs IH] using rev_ind.
  - split; [intros []%elem_of_nil|intros (d & []%elem_of_nil & _)].
  - rewrite group_snoc, keys_upsert.
    setoid_rewrite elem_of_app. setoid_rewrite list_elem_of_singleton.
    case_decide as Hd.
    + rewrite IH. split.
      * intros (d' & Hin & Hk). exists d'. auto.
      * intros (d' & [Hin| ->] & Hk); [eauto|].
        subst k. apply IH, Hd.
    + rewrite elem_of_app, list_elem_of_singleton, IH. split.
      * intros [(d' & Hin & Hk)| ->]; [exists d'; auto|exists d; auto].
      * intros (d' & [Hin| ->] & Hk); [left; eauto|right; congruence].
Qed.

(** The accumulators of a group are those of its documents, folded in
    arrival order. *)
Lemma assoc_group (docs : list Doc) (k : K) :
  assoc k (group key init step docs) =
    match filter (λ d, key d = k) docs with
    | [] => None
    | d :: ds => Some (fold_left step ds (init d))
    end.
Proof.
  induction docs as [|d docs IH] using rev_ind.
  - reflexivity.
  - rewrite group_snoc, assoc_upsert, filter_app.
    destruct (decide (k = key d)) as [->|Hne].
    + rewrite IH, filter_cons_True by reflexivity. simpl.
      destruct (filter _ docs) as [|d0 ds]; simpl.
      * reflexivity.
      * rewrite fold_left_app. reflexivity.
    + rewrite filter_cons_False by congruence. simpl.
      rewrite app_nil_r. exact IH.
Qed.

Lemma assoc_elem_of (tbl : list (K * Acc)) (k : K) (a : Acc) :
  NoDup tbl.*1 → (k, a) ∈ tbl ↔ assoc k tbl = Some a.
Proof.
  induction tbl as [|[k0 a0] tbl IH]; simpl; intros Hnd.
  - split; [intros []%elem_of_nil|discriminate].
  - apply NoDup_cons in Hnd as [Hk0 Hnd]. rewrite elem_of_cons.
    destruct (decide (k = k0)) as [->|Hne].
    + split; [|intros [= ->]; by left].
      intros [[= ->]|Hin]; [reflexivity|].
      exfalso. apply Hk0. apply list_elem_of_fmap. by exists (k0, a).
    + rewrite <- IH by exact Hnd. split; [|auto].
      intros [[= -> ->]|Hin]; [contradiction|exact Hin].
Qed.

Lemma elem_of_group (docs : list Doc) (k : K) (a : Acc) :
  (k, a) ∈ group key init step docs ↔
    ∃ d ds, filter (λ d, key d = k) docs = d :: ds
            ∧ a = fold_left step ds (init d).
Proof.
  rewrite assoc_elem_of by apply NoDup_keys_group.
  rewrite assoc_group. destruct (filter _ docs) as [|d ds].
  - split; [discriminate|intros (? & ? & [=] & _)].
  - split; [intros [= <-]; eauto|intros (? & ? & [= <- <-] & ->); reflexivity].
Qed.

(** A quantity that every document adds to the accumulator of its group
    adds up, over all groups, to its total over the documents. *)
Lemma total_upsert (μ : Acc → Z) (w : Doc → Z) (k : K) (d : Doc)
    (tbl : list (K * Acc)) :
  μ (init d) = w d →
  (∀ a, μ (step a d) = μ a + w d) →
  sumZ ((λ g, μ (snd g)) <$> upsert init step k d tbl) =
    sumZ ((λ g, μ (snd g)) <$> tbl) + w d.
Proof.
  intros Hi Hs. induction tbl as [|[k0 a0] tbl IH]; cbn [upsert].
  - rewrite fmap_cons, sumZ_cons. cbn [snd]. rewrite Hi. lia.
  - destruct (decide (k = k0)).
    + rewrite !fmap_cons, !sumZ_cons. cbn [snd]. rewrite Hs. lia.
    + rewrite !fmap_cons, !sumZ_cons, IH. lia.
Qed.

Lemma total_group (μ : Acc → Z) (w : Doc → Z) (docs : list Doc) :
  (∀ d, μ (init d) = w d) →
  (∀ a d, μ (step a d) = μ a + w d) →
  sumZ ((λ g, μ (snd g)) <$> group key init step docs) = sumZ (w <$> docs).
Proof.
  intros Hi Hs. induction docs as [|d docs IH] using rev_ind.
  - reflexivity.
  - rewrite group_snoc, (total_upsert μ w) by auto.
    rewrite fmap_app, sumZ_app, IH. simpl. rewrite sumZ_cons, sumZ_nil. lia.
Qed.
End GroupFacts.

Lemma filter_fmap {A B} (P : B → Prop) `{∀ b, Decision (P b)}
    (f : A → B) (l : list A) :
  filter P (f <$> l) = f <$> filter (λ a, P (f a)) l.
Proof.
  induction l as [|a l IH]; [reflexivity|].
  rewrite fmap_cons, !filter_cons. destruct (decide (P (f a))).
  - rewrite fmap_cons, IH. reflexivity.
  - exact IH.
Qed.

Lemma filter_bind {A B} (P : B → Prop) `{∀ b, Decision (P b)}
    (f : A → list B) (l : list A) :
  filter P (l ≫= f) = l ≫= (λ a, filter P (f a)).
Proof.
  induction l as [|a l IH]; [reflexivity|].
  rewrite !bind_cons, filter_app, IH. reflexivity.
Qed.

Lemma sort_str_desc_Permutation {A} (k : A → string) (l : list A) :
  sort_str_desc k l ≡ₚ l.
Proof. apply merge_sort_Permutation. Qed.

Lemma sort_str_asc_Permutation {A} (k : A → string) (l : list A) :
  sort_str_asc k l ≡ₚ l.
Proof. apply merge_sort_Permutation. Qed.

Lemma sort_num_desc_Permutation {A} (k : A → Z) (l : list A) :
  sort_num_desc k l ≡ₚ l.
Proof. apply merge_sort_Permutation. Qed.

(** ** The calendar *)

(** Every day of a 400-year era lies at most 365 days into its year. *)
Lemma day_of_year_range (doe : Z) :
  0 ≤ doe < 146097 →
  let yoe := (doe - doe / 1460 + doe / 36524 - doe / 146096) / 365 in
  let doy := doe - (365 * yoe + yoe / 4 - yoe / 100) in
  0 ≤ doy ≤ 365.
Proof. intros Hdoe yoe doy. subst doy yoe. Z.div_mod_to_equations. lia. Qed.

(** Every day of the year has a month from 1 to 12 and a day from 1 to 31. *)
Lemma month_day_of_year_range (doy : Z) :
  0 ≤ doy ≤ 365 →
  let mp := (5 * doy + 2) / 153 in
  let d := doy - (153 * mp + 2) / 5 + 1 in
  let m := if mp <? 10 then mp + 3 else mp - 9 in
  1 ≤ m ≤ 12 ∧ 1 ≤ d ≤ 31.
Proof.
  intros Hdoy mp d m. subst m d mp.
  destruct (Z.ltb_spec ((5 * doy + 2) / 153) 10);
    Z.div_mod_to_equations; lia.
Qed.

Lemma month_day_range (ms : Z) :
  1 ≤ month_of_date ms ≤ 12 ∧ 1 ≤ day_of_date ms ≤ 31.
Proof.
  unfold month_of_date, day_of_date, civil_of_date, civil_from_days.
  cbv zeta. cbn [fst snd].
  apply month_day_of_year_range, day_of_year_range, Z.mod_pos_bound. lia.
Qed.

Lemma digit_inj (a b : Z) : digit a = digit b → a mod 10 = b mod 10.
Proof.
  unfold digit. intros Hd.
  pose proof (Z.mod_pos_bound a 10 ltac:(lia)) as Ha.
  pose proof (Z.mod_pos_bound b 10 ltac:(lia)) as Hb.
  apply (f_equal nat_of_ascii) in Hd.
  rewrite !nat_ascii_embedding in Hd by lia. lia.
Qed.

Lemma pad2_inj (a b : Z) :
  0 ≤ a < 100 → 0 ≤ b < 100 → pad2 a = pad2 b → a = b.
Proof.
  intros Ha Hb [= H1%digit_inj H0%digit_inj].
  revert H1 H0. Z.div_mod_to_equations. lia.
Qed.

Lemma pad4_inj (a b : Z) :
  0 ≤ a < 10000 → 0 ≤ b < 10000 → pad4 a = pad4 b → a = b.
Proof.
  intros Ha Hb [= H3%digit_inj H2%digit_inj H1%digit_inj H0%digit_inj].
  revert H3 H2 H1 H0. Z.div_mod_to_equations. lia.
Qed.

(** Within the years that [%Y] renders, two timestamps have the same
    ["%Y-%m"] string exactly when they lie in the same calendar month, and
    the same ["%Y-%m-%d"] string exactly when they lie on the same day. *)
Lemma dateToString_Ym_same_month (ms1 ms2 : Z) :
  0 ≤ year_of_date ms1 < 10000 → 0 ≤ year_of_date ms2 < 10000 →
  dateToString_Ym ms1 = dateToString_Ym ms2 ↔
  year_of_date ms1 = year_of_date ms2 ∧ month_of_date ms1 = month_of_date ms2.
Proof.
  intros Hy1 Hy2.
  pose proof (month_day_range ms1) as [Hm1 _].
  pose proof (month_day_range ms2) as [Hm2 _].
  unfold dateToString_Ym, year_of_date, month_of_date in *.
  destruct (civil_of_date ms1) as [[y1 m1] d1].
  destruct (civil_of_date ms2) as [[y2 m2] d2]. cbn [fst snd] in *.
  split; [|intros [-> ->]; reflexivity].
  intros Hs. unfold pad4, pad2 in Hs. cbn [String.append] in Hs.
  injection Hs as H3 H2 H1 H0 Hm1' Hm0'. split.
  - apply pad4_inj; [lia|lia|]. unfold pad4, pad2.
    rewrite H3, H2, H1, H0. reflexivity.
  - apply pad2_inj; [lia|lia|]. unfold pad2. rewrite Hm1', Hm0'. reflexivity.
Qed.

Lemma dateToString_Ymd_same_day (ms1 ms2 : Z) :
  0 ≤ year_of_date ms1 < 10000 → 0 ≤ year_of_date ms2 < 10000 →
  dateToString_Ymd ms1 = dateToString_Ymd ms2 ↔
  civil_of_date ms1 = civil_of_date ms2.
Proof.
  intros Hy1 Hy2.
  pose proof (month_day_range ms1) as [Hm1 Hd1].
  pose proof (month_day_range ms2) as [Hm2 Hd2].
  unfold dateToString_Ymd, year_of_date, month_of_date, day_of_date in *.
  destruct (civil_of_date ms1) as [[y1 m1] d1].
  destruct (civil_of_date ms2) as [[y2 m2] d2]. cbn [fst snd] in *.
  split; [|intros [= -> -> ->]; reflexivity].
  intros Hs. unfold pad4, pad2 in Hs. cbn [String.append] in Hs.
  injection Hs as H3 H2 H1 H0 Hm1' Hm0' Hd1' Hd0'.
  assert (y1 = y2) as ->.
  { apply pad4_inj; [lia|lia|]. unfold pad4, pad2.
    rewrite H3, H2, H1, H0. reflexivity. }
  assert (m1 = m2) as ->.
  { apply pad2_inj; [lia|lia|]. unfold pad2. rewrite Hm1', Hm0'. reflexivity. }
  assert (d1 = d2) as ->.
  { apply pad2_inj; [lia|lia|]. unfold pad2. rewrite Hd1', Hd0'. reflexivity. }
  reflexivity.
Qed.

(** ** Daily sales *)

Lemma daily_fold (ds : list Daily.Joined) (a : Daily.Acc) :
  fold_left Daily.step ds a =
    {| Daily.acc_orders := Daily.acc_orders a ++ (Daily.entry <$> ds);
       Daily.acc_totalOrders := Daily.acc_totalOrders a + Z.of_nat (length ds);
       Daily.acc_totalSales :=
         Daily.acc_totalSales a
         + sumZ ((λ j, Order.total_price (Daily.j_order j)) <$> ds) |}.
Proof.
  revert a. induction ds as [|d ds IH]; intros [os n t].
  - cbn. rewrite app_nil_r, sumZ_nil. f_equal; lia.
  - cbn [fold_left]. rewrite IH, !fmap_cons, sumZ_cons, length_cons. cbn.
    rewrite <- app_assoc. cbn. f_equal; lia.
Qed.

Lemma daily_groups (db : DB.t) (k : Daily.Key) (a : Daily.Acc) :
  (k, a) ∈ group Daily.key Daily.init Daily.step
             (Daily.join db <$> Daily.matched db) ↔
  orders_of_day db (Daily.date k) ≠ []
  ∧ Daily.bucket (k, a) = day_bucket db (Daily.date k).
Proof.
  rewrite elem_of_group, filter_fmap.
  assert (Hf : filter (λ o, Daily.key (Daily.join db o) = k) (Daily.matched db)
               = orders_of_day db (Daily.date k)).
  { unfold orders_of_day, Daily.matched, match_status.
    apply list_filter_iff. intros o. destruct k as [d]. unfold Daily.key. cbn.
    split; [intros [= <-]; reflexivity|intros <-; reflexivity]. }
  rewrite Hf. unfold day_bucket.
  destruct (orders_of_day db (Daily.date k)) as [|o os].
  - split; [intros (? & ? & [=] & _)|intros [[] _]; reflexivity].
  - split.
    + intros (d & ds & Hd & ->). rewrite fmap_cons in Hd.
      injection Hd as <- <-. split; [discriminate|].
      rewrite daily_fold. unfold Daily.bucket. destruct k as [dt]. cbn.
      rewrite <- !list_fmap_compose, length_fmap, sumZ_cons.
      f_equal. lia.
    + intros [_ Hb]. eexists _, _. split; [rewrite fmap_cons; reflexivity|].
      rewrite daily_fold. destruct a as [os' n t], k as [dt].
      unfold Daily.bucket in Hb. cbn in Hb. injection Hb as -> -> ->. cbn.
      rewrite <- !list_fmap_compose, length_fmap, sumZ_cons.
      f_equal. lia.
Qed.

Lemma elem_of_daily (db : DB.t) (b : Daily.Bucket) :
  b ∈ Daily.pipeline db ↔
  orders_of_day db (Daily.date (Daily._id b)) ≠ []
  ∧ b = day_bucket db (Daily.date (Daily._id b)).
Proof.
  unfold Daily.pipeline. rewrite sort_str_desc_Permutation, list_elem_of_fmap.
  split.
  - intros ([k a] & -> & Hg). apply daily_groups in Hg as [Hne Hb].
    cbn. split; [exact Hne|exact Hb].
  - intros [Hne Hb]. destruct b as [k os n t].
    exists (k, {| Daily.acc_orders := os; Daily.acc_totalOrders := n;
                  Daily.acc_totalSales := t |}).
    split; [reflexivity|]. apply daily_groups. split; [exact Hne|exact Hb].
Qed.

(** C2: every order that passes the status filter of the daily report lies
    in exactly one day bucket, the one of its creation day; a bucket counts
    the passing orders of its day; the bucket keys are pairwise distinct;
    and the [totalOrders] of all buckets add up to the number of passing
    orders. *)
Theorem daily_each_order_in_one_bucket (db : DB.t) :
  let passing :=
    filter (λ o, Order.status o ∈
                   ["completed"; "pending"; "confirmed"; "cancelled"])
      (DB.orders db) in
  let report := Daily.pipeline db in
  (∀ o, o ∈ passing →
     ∃ b, b ∈ report
          ∧ Daily.date (Daily._id b) = dateToString_Ymd (Order.createdAt o)
          ∧ Daily.entry (Daily.join db o) ∈ Daily.orders b
          ∧ ∀ b', b' ∈ report →
                  Daily.date (Daily._id b')
                  = dateToString_Ymd (Order.createdAt o) →
                  b' = b)
  ∧ (∀ b, b ∈ report →
       Daily.totalOrders b =
         Z.of_nat (length (filter
           (λ o, dateToString_Ymd (Order.createdAt o)
                 = Daily.date (Daily._id b)) passing)))
  ∧ NoDup (Daily._id <$> report)
  ∧ sumZ (Daily.totalOrders <$> report) = Z.of_nat (length passing).
Proof.
  intros passing report. split; [|split; [|split]].
  - intros o Ho. set (d := dateToString_Ymd (Order.createdAt o)).
    assert (Hin : o ∈ orders_of_day db d).
    { apply list_elem_of_filter. split; [reflexivity|exact Ho]. }
    exists (day_bucket db d). split; [|split; [|split]].
    + apply elem_of_daily.
      change (Daily.date (Daily._id (day_bucket db d))) with d.
      split; [|reflexivity].
      intros Hnil. rewrite Hnil in Hin. by apply elem_of_nil in Hin.
    + reflexivity.
    + apply list_elem_of_fmap. exists o. split; [reflexivity|exact Hin].
    + intros b' [_ Hb']%elem_of_daily Hd. rewrite Hb', Hd. reflexivity.
  - intros b [_ Hb]%elem_of_daily.
    apply (f_equal Daily.totalOrders) in Hb. exact Hb.
  - unfold report, Daily.pipeline.
    rewrite sort_str_desc_Permutation, <- list_fmap_compose.
    apply (NoDup_keys_group Daily.key Daily.init Daily.step).
  - unfold report, Daily.pipeline.
    rewrite (sumZ_Permutation _ _
               (fmap_Permutation _ _ _ (sort_str_desc_Permutation _ _))).
    rewrite <- list_fmap_compose.
    rewrite (total_group Daily.key Daily.init Daily.step
               Daily.acc_totalOrders (λ _, 1)).
    + rewrite sumZ_ones, length_fmap. reflexivity.
    + reflexivity.
    + reflexivity.
Qed.

(** C6: an order that passes the status filter and whose [customer_id]
    matches no document of the joined collection is still pushed on the
    bucket of its day, with no customer name, and is among the orders that
    the bucket's [totalOrders] counts and its [totalSales] adds up. *)
Theorem daily_keeps_order_without_customer (db : DB.t) (o : Order.t) :
  o ∈ DB.orders db →
  Order.status o ∈ ["completed"; "pending"; "confirmed"; "cancelled"] →
  (∀ u, u ∈ DB.users db → User._id u ≠ Order.customer_id o) →
  ∃ b,
    b ∈ Daily.pipeline db
    ∧ Daily.date (Daily._id b) = dateToString_Ymd (Order.createdAt o)
    ∧ {| Daily.customer := None;
         Daily.status := Order.status o;
         Daily.items := filter (λ it, OrderItems.order_id it = Order._id o)
                          (DB.orderitems db);
         Daily.total := Order.total_price o |} ∈ Daily.orders b
    ∧ o ∈ orders_of_day db (Daily.date (Daily._id b))
    ∧ Daily.totalOrders b
      = Z.of_nat (length (orders_of_day db (Daily.date (Daily._id b))))
    ∧ Daily.totalSales b
      = sumZ (Order.total_price <$>
                orders_of_day db (Daily.date (Daily._id b))).
Proof.
  intros Ho Hst Hnone. set (d := dateToString_Ymd (Order.createdAt o)).
  assert (Hin : o ∈ orders_of_day db d).
  { apply list_elem_of_filter. split; [reflexivity|].
    apply list_elem_of_filter. split; [exact Hst|exact Ho]. }
  assert (Hcust : lookup_eq User._id (DB.users db) (Order.customer_id o) = []).
  { apply elem_of_nil_inv. intros u [Hu Hin']%list_elem_of_filter.
    exact (Hnone u Hin' Hu). }
  exists (day_bucket db d).
  change (Daily.date (Daily._id (day_bucket db d))) with d.
  split; [|split; [|split; [|split; [|split]]]].
  - apply elem_of_daily.
    change (Daily.date (Daily._id (day_bucket db d))) with d.
    split; [|reflexivity].
    intros Hnil. rewrite Hnil in Hin. by apply elem_of_nil in Hin.
  - reflexivity.
  - apply list_elem_of_fmap. exists o. split; [|exact Hin].
    unfold Daily.entry, Daily.join. cbn. rewrite Hcust. reflexivity.
  - exact Hin.
  - reflexivity.
  - reflexivity.
Qed.

Lemma daily_keeps_order_without_customer_witness :
  ∃ b,
    b ∈ Daily.pipeline sample
    ∧ Daily.date (Daily._id b) = "2024-03-05"
    ∧ {| Daily.customer := None; Daily.status := "confirmed";
         Daily.items := [item_102]; Daily.total := 40 |} ∈ Daily.orders b
    ∧ Daily.totalOrders b = 2
    ∧ Daily.totalSales b = 190.
Proof.
  assert (H1 : order_2 ∈ DB.orders sample).
  { vm_compute. apply list_elem_of_further, list_elem_of_here. }
  assert (H2 : Order.status order_2
               ∈ ["completed"; "pending"; "confirmed"; "cancelled"]).
  { vm_compute. do 2 apply list_elem_of_further. apply list_elem_of_here. }
  assert (H3 : ∀ u, u ∈ DB.users sample → User._id u ≠ Order.customer_id order_2).
  { intros u [->|[]%elem_of_nil]%elem_of_cons. vm_compute. discriminate. }
  destruct (daily_keeps_order_without_customer sample order_2 H1 H2 H3)
    as (b & Hb & Hd & He & _ & Hn & Ht).
  exists b. rewrite Hd in Hn, Ht.
  split; [exact Hb|]. split; [exact Hd|]. split; [exact He|].
  split; [exact Hn|exact Ht].
Defined.

Example scenario_daily :
  (λ b, (Daily.date (Daily._id b), Daily.totalOrders b, Daily.totalSales b))
    <$> Daily.pipeline scenario = [("2024-03-05", 1, 100)].
Proof. vm_compute. reflexivity. Qed.

(** ** Monthly sales *)

Lemma monthly_fold (os : list Order.t) (a : Monthly.Acc) :
  fold_left Monthly.step os a =
    {| Monthly.acc_totalOrders :=
         Monthly.acc_totalOrders a + Z.of_nat (length os);
       Monthly.acc_totalSales :=
         Monthly.acc_totalSales a + sumZ (Order.total_price <$> os) |}.
Proof.
  revert a. induction os as [|o os IH]; intros [n t].
  - cbn. rewrite sumZ_nil. f_equal; lia.
  - cbn [fold_left]. rewrite IH, fmap_cons, sumZ_cons, length_cons. cbn.
    f_equal; lia.
Qed.

(** C5: the [totalSales] of a month bucket is the sum of [total_price] over
    the orders that pass the status filter and whose creation timestamp
    falls in the bucket's month; the bucket counts these orders, and there
    is at least one. *)
Theorem monthly_total_sales (db : DB.t) (b : Monthly.Bucket) :
  b ∈ Monthly.pipeline db →
  Monthly.totalSales b
  = sumZ (Order.total_price <$> orders_of_month db (Monthly._id b))
  ∧ Monthly.totalOrders b
    = Z.of_nat (length (orders_of_month db (Monthly._id b)))
  ∧ orders_of_month db (Monthly._id b) ≠ [].
Proof.
  unfold Monthly.pipeline.
  rewrite sort_str_desc_Permutation, list_elem_of_fmap.
  intros ([k a] & -> & Hg). apply elem_of_group in Hg as (o & os & Hf & ->).
  unfold orders_of_month. cbn.
  unfold Monthly.matched, match_status, Monthly.key in Hf. rewrite Hf.
  rewrite monthly_fold, fmap_cons, sumZ_cons, length_cons. cbn.
  split; [reflexivity|]. split; [lia|discriminate].
Qed.

Lemma monthly_total_sales_witness :
  let march := {| Monthly._id := "2024-03"; Monthly.totalOrders := 2;
                  Monthly.totalSales := 190 |} in
  march ∈ Monthly.pipeline sample
  ∧ Monthly.totalSales march
    = sumZ (Order.total_price <$> orders_of_month sample "2024-03")
  ∧ Monthly.totalOrders march
    = Z.of_nat (length (orders_of_month sample "2024-03"))
  ∧ orders_of_month sample "2024-03" ≠ [].
Proof.
  intros march.
  assert (Hin : march ∈ Monthly.pipeline sample).
  { vm_compute. apply list_elem_of_further, list_elem_of_here. }
  split; [exact Hin|]. exact (monthly_total_sales sample march Hin).
Defined.

Example march_orders : orders_of_month sample "2024-03" = [order_1; order_2].
Proof. vm_compute. reflexivity. Qed.

(** ** The per-customer accumulators *)

Lemma totals_fold (js : list Totals.Joined) (a : Totals.t) :
  fold_left Totals.step js a =
    {| Totals.totalOrders := Totals.totalOrders a + Z.of_nat (length js);
       Totals.totalItems :=
         Totals.totalItems a
         + sumZ ((λ j, sumZ (OrderItems.quantity <$> snd j)) <$> js);
       Totals.totalSpent :=
         Totals.totalSpent a + sumZ ((λ j, Order.total_price (fst j)) <$> js);
       Totals.lastOrderDate :=
         fold_left Z.max ((λ j, Order.createdAt (fst j)) <$> js)
           (Totals.lastOrderDate a) |}.
Proof.
  revert a. induction js as [|j js IH]; intros [n i t m].
  - cbn. rewrite !sumZ_nil. f_equal; lia.
  - cbn [fold_left]. rewrite IH, !fmap_cons, !sumZ_cons, length_cons. cbn.
    f_equal; lia.
Qed.

Lemma totals_group {K} `{EqDecision K} (key : Totals.Joined → K)
    (docs : list Totals.Joined) (k : K) (a : Totals.t) :
  (k, a) ∈ group key Totals.init Totals.step docs →
  filter (λ j, key j = k) docs ≠ []
  ∧ Totals.totalOrders a = Z.of_nat (length (filter (λ j, key j = k) docs)).
Proof.
  intros (j & js & Hf & ->)%elem_of_group. rewrite Hf.
  split; [discriminate|].
  rewrite totals_fold, length_cons. cbn. lia.
Qed.

(** ** User orders *)

Lemma elem_of_unwind {A B C} (arr : A → list B) (set : A → B → C)
    (docs : list A) (c : C) :
  c ∈ unwind arr set docs ↔ ∃ d b, d ∈ docs ∧ b ∈ arr d ∧ c = set d b.
Proof.
  unfold unwind. rewrite list_elem_of_bind. split.
  - intros (d & (b & -> & Hb)%list_elem_of_fmap & Hd). eauto.
  - intros (d & b & Hd & Hb & ->). exists d. split; [|exact Hd].
    apply list_elem_of_fmap. eauto.
Qed.

Lemma completed_confirmed_not_pending_cancelled (s : string) :
  s ∈ ["completed"; "confirmed"] ∧ s ∉ ["pending"; "cancelled"]
  ↔ s ∈ ["completed"; "confirmed"].
Proof.
  split; [tauto|]. intros Hs. split; [exact Hs|].
  rewrite !elem_of_cons, elem_of_nil in Hs.
  rewrite !elem_of_cons, elem_of_nil.
  destruct Hs as [->| [->|[]]]; intros [[=]|[[=]|[]]].
Qed.

(** C4: the [totalOrders] of a returned customer summary is the number of
    that customer's orders with status completed or confirmed, and the
    report is the one computed with the pending and the cancelled orders
    taken out of the collection. *)
Theorem user_order_counts_completed_confirmed (db : DB.t) :
  (∀ u, u ∈ UserOrder.pipeline db →
     Summary.totalOrders u =
       Z.of_nat (length (filter
         (λ o, Order.customer_id o = Summary.customer_id u)
         (filter (λ o, Order.status o ∈ ["completed"; "confirmed"])
            (DB.orders db)))))
  ∧ UserOrder.pipeline db =
      UserOrder.pipeline
        {| DB.orders :=
             filter (λ o, Order.status o ∉ ["pending"; "cancelled"])
               (DB.orders db);
           DB.orderitems := DB.orderitems db;
           DB.users := DB.users db;
           DB.customers := DB.customers db |}.
Proof.
  split.
  - intros u. unfold UserOrder.pipeline.
    rewrite sort_num_desc_Permutation. unfold UserOrder.projected.
    rewrite elem_of_unwind. intros ([k a] & c & Hg & Hc & ->).
    apply list_elem_of_filter in Hc as [Hk _]. cbn in Hk. cbn.
    apply totals_group in Hg as [_ ->].
    rewrite filter_fmap, length_fmap, Hk. reflexivity.
  - unfold UserOrder.pipeline, UserOrder.projected, UserOrder.by_customer,
      UserOrder.matched, match_status. cbn.
    rewrite list_filter_filter.
    rewrite (list_filter_iff _ _ _
               (λ o, completed_confirmed_not_pending_cancelled (Order.status o))).
    reflexivity.
Qed.

(** ** Order status *)

Lemma order_status_fold (ps : list (string * Summary.t))
    (us : list Summary.t) :
  fold_left OrderStatus.step ps us = us ++ (snd <$> ps).
Proof.
  revert us. induction ps as [|p ps IH]; intros us; cbn [fold_left].
  - rewrite app_nil_r. reflexivity.
  - rewrite IH, fmap_cons. unfold OrderStatus.step.
    rewrite <- app_assoc. reflexivity.
Qed.

Lemma format_snoc (report : list OrderStatus.Row) (r : OrderStatus.Row) :
  OrderStatus.format (report ++ [r]) =
    <[OrderStatus._id r := OrderStatus.users r]> (OrderStatus.format report).
Proof. unfold OrderStatus.format. rewrite fold_left_app. reflexivity. Qed.

(** On rows with pairwise distinct keys, the object built by the [forEach]
    has exactly the rows as its properties. *)
Lemma format_lookup (report : list OrderStatus.Row) (s : string)
    (us : list Summary.t) :
  NoDup (OrderStatus._id <$> report) →
  OrderStatus.format report !! s = Some us ↔
  {| OrderStatus._id := s; OrderStatus.users := us |} ∈ report.
Proof.
  induction report as [|r report IH] using rev_ind; intros Hnd.
  - unfold OrderStatus.format. cbn. rewrite lookup_empty, elem_of_nil.
    split; [discriminate|tauto].
  - rewrite fmap_app in Hnd. apply NoDup_app in Hnd as (Hnd & Hfresh & _).
    rewrite format_snoc, lookup_insert, elem_of_app, list_elem_of_singleton.
    destruct r as [k v]. cbn [OrderStatus._id OrderStatus.users].
    destruct (decide (k = s)) as [->|Hne].
    + split; [intros [= ->]; by right|].
      intros [Hin|[= ->]]; [|reflexivity].
      exfalso. apply (Hfresh s).
      * apply list_elem_of_fmap. eexists. split; [|exact Hin]. reflexivity.
      * cbn. apply list_elem_of_here.
    + rewrite IH by exact Hnd. split; [tauto|].
      intros [Hin|[= -> ->]]; [exact Hin|congruence].
Qed.

(** The property [s] of the formatted report lists, in group order, the
    summaries projected for status [s]; the property is absent when there
    are none. *)
Lemma formatted_lookup (db : DB.t) (s : string) (us : list Summary.t) :
  OrderStatus.formatted db !! s = Some us ↔
  filter (λ p, fst p = s) (OrderStatus.projected db) ≠ []
  ∧ us = snd <$> filter (λ p, fst p = s) (OrderStatus.projected db).
Proof.
  unfold OrderStatus.formatted. rewrite format_lookup.
  - unfold OrderStatus.pipeline.
    rewrite sort_str_asc_Permutation, list_elem_of_fmap. split.
    + intros ([k a] & [= -> ->] & (p & ps & Hf & ->)%elem_of_group).
      rewrite Hf, order_status_fold, fmap_cons.
      split; [discriminate|reflexivity].
    + intros [Hne ->]. eexists (s, _). split; [reflexivity|].
      apply elem_of_group.
      destruct (filter _ (OrderStatus.projected db)) as [|p ps]; [done|].
      exists p, ps. split; [reflexivity|].
      rewrite order_status_fold. reflexivity.
  - unfold OrderStatus.pipeline.
    rewrite sort_str_asc_Permutation, <- list_fmap_compose.
    apply (NoDup_keys_group fst OrderStatus.init OrderStatus.step).
Qed.

(** A projected document comes from a (status, customer) group and a
    customer record with the group's customer reference. *)
Lemma elem_of_projected (db : DB.t) (s : string) (u : Summary.t) :
  (s, u) ∈ OrderStatus.projected db ↔
  ∃ cid a c,
    ((s, cid), a) ∈ OrderStatus.by_status_customer db
    ∧ c ∈ DB.customers db
    ∧ Customer._id c = cid
    ∧ u = Summary.project a c.
Proof.
  unfold OrderStatus.projected. rewrite elem_of_unwind. split.
  - intros ([[s' cid] a] & c & Hg & Hc & [= -> ->]).
    apply list_elem_of_filter in Hc as [Hid Hc]. cbn in Hid.
    exists cid, a, c. auto.
  - intros (cid & a & c & Hg & Hc & Hid & ->).
    exists ((s, cid), a), c. split; [exact Hg|]. split; [|reflexivity].
    apply list_elem_of_filter. split; [exact Hid|exact Hc].
Qed.

(** C1: a customer reference that matches no customer record occurs in no
    value list of the formatted order-status report; a status all of whose
    orders carry such references is not a property of the report; and a
    group whose reference does match a record is listed under its status. *)
Theorem order_status_drops_unmatched_groups (db : DB.t) :
  (∀ cid,
     (∀ c, c ∈ DB.customers db → Customer._id c ≠ cid) →
     ∀ s us u,
       OrderStatus.formatted db !! s = Some us → u ∈ us →
       Summary.customer_id u ≠ cid)
  ∧ (∀ s,
       (∀ o c, o ∈ DB.orders db → Order.status o = s →
               c ∈ DB.customers db → Customer._id c ≠ Order.customer_id o) →
       OrderStatus.formatted db !! s = None)
  ∧ (∀ s cid a c,
       ((s, cid), a) ∈ OrderStatus.by_status_customer db →
       c ∈ DB.customers db → Customer._id c = cid →
       ∃ us, OrderStatus.formatted db !! s = Some us
             ∧ Summary.project a c ∈ us).
Proof.
  split; [|split].
  - intros cid Hnone s us u [_ ->]%formatted_lookup Hu.
    apply list_elem_of_fmap in Hu as ([s' u'] & -> & Hp).
    apply list_elem_of_filter in Hp as [_ Hp].
    apply elem_of_projected in Hp as (cid' & a & c & _ & Hc & <- & ->).
    cbn. exact (Hnone c Hc).
  - intros s Hnone. destruct (OrderStatus.formatted db !! s) as [us|] eqn:E;
      [|reflexivity].
    exfalso. apply formatted_lookup in E as [Hne _].
    destruct (filter _ (OrderStatus.projected db)) as [|[s' u] ps] eqn:Hf;
      [done|].
    assert (Hp : (s', u) ∈ filter (λ p, fst p = s) (OrderStatus.projected db)).
    { rewrite Hf. apply list_elem_of_here. }
    apply list_elem_of_filter in Hp as [Hs Hp]. cbn in Hs. subst s'.
    apply elem_of_projected in Hp as (cid & a & c & Hg & Hc & Hid & _).
    assert (Hk : (s, cid) ∈ (OrderStatus.by_status_customer db).*1).
    { apply list_elem_of_fmap. exists ((s, cid), a). auto. }
    apply elem_of_keys_group in Hk as (j & Hj & Hkey).
    apply list_elem_of_fmap in Hj as (o & -> & Ho).
    apply list_elem_of_filter in Ho as [_ Ho].
    injection Hkey as Hs Hcid. cbn in Hs, Hcid.
    apply (Hnone o c Ho Hs Hc). congruence.
  - intros s cid a c Hg Hc Hid.
    assert (Hp : (s, Summary.project a c) ∈ OrderStatus.projected db).
    { apply elem_of_projected. exists cid, a, c. auto. }
    assert (Hf : (s, Summary.project a c)
                 ∈ filter (λ p, fst p = s) (OrderStatus.projected db)).
    { apply list_elem_of_filter. auto. }
    eexists. split.
    + apply formatted_lookup. split; [|reflexivity].
      intros Hnil. rewrite Hnil in Hf. by apply elem_of_nil in Hf.
    + apply list_elem_of_fmap. exists (s, Summary.project a c).
      split; [reflexivity|exact Hf].
Qed.

Lemma order_status_drops_unmatched_groups_witness :
  OrderStatus.formatted sample !! "confirmed" = None
  ∧ ∀ s us u,
      OrderStatus.formatted sample !! s = Some us → u ∈ us →
      Summary.customer_id u ≠ 11%N.
Proof.
  destruct (order_status_drops_unmatched_groups sample) as (Hcid & Hstatus & _).
  split.
  - apply Hstatus. intros o c Ho Hs Hc.
    repeat (apply elem_of_cons in Ho as [->|Ho]; [try discriminate Hs|]).
    + repeat (apply elem_of_cons in Hc as [->|Hc]; [vm_compute; discriminate|]).
      by apply elem_of_nil in Hc.
    + by apply elem_of_nil in Ho.
  - apply Hcid. intros c Hc.
    repeat (apply elem_of_cons in Hc as [->|Hc]; [vm_compute; discriminate|]).
    by apply elem_of_nil in Hc.
Defined.

Example sample_statuses :
  (map_to_list (OrderStatus.formatted sample)).*1
  ≡ₚ ["cancelled"; "completed"; "pending"]
  ∧ (λ us : list Summary.t, Summary.fullName <$> us)
      <$> OrderStatus.formatted sample !! "completed"
    = Some ["Alice"].
Proof.
  split; [|vm_compute; reflexivity].
  vm_compute. apply perm_swap.
Qed.

(** ** User products *)

#[global] Instance num_desc_transitive {A} (k : A → Z) : Transitive (num_desc k).
Proof. intros x y z. unfold num_desc. lia. Qed.

#[global] Instance num_desc_total {A} (k : A → Z) : Total (num_desc k).
Proof. intros x y. unfold num_desc. lia. Qed.

Lemma product_fold (us : list (Order.t * OrderItems.t)) (a : UserProduct.Acc) :
  fold_left UserProduct.step us a =
    {| UserProduct.acc_product_id := UserProduct.acc_product_id a;
       UserProduct.acc_name := UserProduct.acc_name a;
       UserProduct.acc_category := UserProduct.acc_category a;
       UserProduct.acc_unit_price := UserProduct.acc_unit_price a;
       UserProduct.acc_quantity :=
         UserProduct.acc_quantity a
         + sumZ ((λ u, OrderItems.quantity (snd u)) <$> us);
       UserProduct.acc_total_price :=
         UserProduct.acc_total_price a
         + sumZ ((λ u, OrderItems.total_price (snd u)) <$> us) |}.
Proof.
  revert a. induction us as [|u us IH]; intros [p n c up q t].
  - cbn. rewrite !sumZ_nil. f_equal; lia.
  - cbn [fold_left]. rewrite IH, !fmap_cons, !sumZ_cons. cbn. f_equal; lia.
Qed.

(** The items that the [$unwind] lays out: for every completed or confirmed
    order in turn, the order-items its [items] array references. *)
Lemma unwound_items (db : DB.t) :
  snd <$> UserProduct.unwound db =
    filter (λ o, Order.status o ∈ ["completed"; "confirmed"]) (DB.orders db)
    ≫= (λ o, filter (λ it, OrderItems._id it ∈ Order.items o)
               (DB.orderitems db)).
Proof.
  unfold UserProduct.unwound, UserProduct.matched, match_status, unwind.
  induction (filter _ (DB.orders db)) as [|o os IH]; [reflexivity|].
  rewrite fmap_cons, !bind_cons, fmap_app, IH. f_equal.
  rewrite <- list_fmap_compose. cbn. apply list_fmap_id.
Qed.

Lemma product_row (db : DB.t) (r : UserProduct.Row) :
  r ∈ UserProduct.pipeline db →
  ∃ u us,
    filter (λ u, OrderItems.product_id (snd u) = UserProduct._id r)
      (UserProduct.unwound db) = u :: us
    ∧ r = UserProduct.row
            (UserProduct._id r, fold_left UserProduct.step us (UserProduct.init u)).
Proof.
  unfold UserProduct.pipeline.
  rewrite sort_num_desc_Permutation, list_elem_of_fmap.
  intros ([k a] & -> & (u & us & Hf & ->)%elem_of_group).
  exists u, us. split; [exact Hf|reflexivity].
Qed.

(** Every joined order-item has the row of its product in the report. *)
Lemma product_row_exists (db : DB.t) (it : OrderItems.t) :
  it ∈ snd <$> UserProduct.unwound db →
  ∃ r, r ∈ UserProduct.pipeline db
       ∧ UserProduct.product_id r = OrderItems.product_id it.
Proof.
  intros (u & -> & Hu)%list_elem_of_fmap.
  assert (Hk : UserProduct.key u
               ∈ (group UserProduct.key UserProduct.init UserProduct.step
                    (UserProduct.unwound db)).*1)
    by (apply elem_of_keys_group; eauto).
  apply list_elem_of_fmap in Hk as ([k a] & Hk & Hg). cbn in Hk.
  assert (Hr : UserProduct.row (k, a) ∈ UserProduct.pipeline db).
  { unfold UserProduct.pipeline. rewrite sort_num_desc_Permutation.
    by apply list_elem_of_fmap_2. }
  exists (UserProduct.row (k, a)). split; [exact Hr|].
  apply elem_of_group in Hg as (u' & us' & Hf & ->).
  assert (Hin : u' ∈ filter (λ u, UserProduct.key u = k)
                       (UserProduct.unwound db))
    by (rewrite Hf; apply list_elem_of_here).
  apply list_elem_of_filter in Hin as [Hin _].
  rewrite product_fold. cbn. unfold UserProduct.key in *. congruence.
Qed.

(** C3: the [quantity] of a product row is the sum of the quantities of the
    joined order-items with the row's product id, the join running over the
    completed and confirmed orders; the rows come in non-increasing order of
    [quantity]; and every joined order-item has the row of its product in
    the report. *)
Theorem product_quantity_is_item_sum (db : DB.t) :
  let joined_items :=
    filter (λ o, Order.status o ∈ ["completed"; "confirmed"]) (DB.orders db)
    ≫= (λ o, filter (λ it, OrderItems._id it ∈ Order.items o)
               (DB.orderitems db)) in
  (∀ r, r ∈ UserProduct.pipeline db →
     UserProduct.quantity r =
       sumZ (OrderItems.quantity <$>
               filter (λ it, OrderItems.product_id it = UserProduct.product_id r)
                 joined_items))
  ∧ StronglySorted (λ r1 r2, UserProduct.quantity r2 ≤ UserProduct.quantity r1)
      (UserProduct.pipeline db)
  ∧ (∀ it, it ∈ joined_items →
       ∃ r, r ∈ UserProduct.pipeline db
            ∧ UserProduct.product_id r = OrderItems.product_id it).
Proof.
  intros joined_items. split; [|split].
  - intros r (u & us & Hf & Hr)%product_row.
    assert (Hu : OrderItems.product_id (snd u) = UserProduct._id r).
    { assert (Hin : u ∈ filter
                (λ u, OrderItems.product_id (snd u) = UserProduct._id r)
                (UserProduct.unwound db))
        by (rewrite Hf; apply list_elem_of_here).
      apply list_elem_of_filter in Hin as [Hin _]. exact Hin. }
    assert (Hid : UserProduct.product_id r = UserProduct._id r).
    { rewrite Hr at 1. rewrite product_fold. cbn. exact Hu. }
    unfold joined_items. rewrite <- unwound_items, Hid, filter_fmap, Hf.
    rewrite <- list_fmap_compose, fmap_cons, sumZ_cons.
    rewrite Hr at 1. rewrite product_fold. reflexivity.
  - apply (StronglySorted_merge_sort (num_desc UserProduct.quantity)).
  - intros it Hit. unfold joined_items in Hit.
    rewrite <- unwound_items in Hit. by apply product_row_exists.
Qed.

Lemma product_quantity_is_item_sum_witness :
  ∃ r, r ∈ UserProduct.pipeline sample
       ∧ UserProduct.product_id r = "P1"
       ∧ UserProduct.quantity r = 6.
Proof.
  destruct (product_quantity_is_item_sum sample) as (Hq & _ & Hex).
  destruct (Hex alice_item) as (r & Hr & Hp).
  { vm_compute. apply list_elem_of_here. }
  exists r. split; [exact Hr|]. split; [exact Hp|].
  rewrite (Hq r Hr), Hp. vm_compute. reflexivity.
Defined.

(** C7, as worded, fails: on a store whose order-item document stores a
    name and a category, the product row shows them. *)
Lemma stored_name_reaches_the_report :
  ¬ (∀ db r, r ∈ UserProduct.pipeline db →
             UserProduct.name r = None ∧ UserProduct.category r = None).
Proof.
  intros Hall.
  destruct (Hall named_store
              {| UserProduct._id := "P1"; UserProduct.product_id := "P1";
                 UserProduct.name := Some (VStr "Burger");
                 UserProduct.category := Some (VStr "Food");
                 UserProduct.unit_price := 50; UserProduct.quantity := 2;
                 UserProduct.total_price := 100 |}) as [Hname _].
  - vm_compute. apply list_elem_of_here.
  - discriminate Hname.
Qed.

(** C7, amended: the [name] and the [category] of a product row are what the
    first joined order-item of the product stores under these two paths,
    which the schema does not declare; they are absent when that document
    stores nothing beside the schema's paths. *)
Theorem product_name_category_of_first_item (db : DB.t)
    (r : UserProduct.Row) :
  r ∈ UserProduct.pipeline db →
  let joined_items :=
    filter (λ o, Order.status o ∈ ["completed"; "confirmed"]) (DB.orders db)
    ≫= (λ o, filter (λ it, OrderItems._id it ∈ Order.items o)
               (DB.orderitems db)) in
  ∃ it,
    head (filter (λ it, OrderItems.product_id it = UserProduct.product_id r)
            joined_items) = Some it
    ∧ UserProduct.name r = OrderItems.stored "name" (OrderItems.other it)
    ∧ UserProduct.category r
      = OrderItems.stored "category" (OrderItems.other it)
    ∧ (OrderItems.other it = [] →
       UserProduct.name r = None ∧ UserProduct.category r = None).
Proof.
  intros (u & us & Hf & Hr)%product_row joined_items.
  assert (Hu : OrderItems.product_id (snd u) = UserProduct._id r).
  { assert (Hin : u ∈ filter
              (λ u, OrderItems.product_id (snd u) = UserProduct._id r)
              (UserProduct.unwound db))
      by (rewrite Hf; apply list_elem_of_here).
    apply list_elem_of_filter in Hin as [Hin _]. exact Hin. }
  assert (Hid : UserProduct.product_id r = UserProduct._id r).
  { rewrite Hr at 1. rewrite product_fold. cbn. exact Hu. }
  assert (Hn : UserProduct.name r
               = OrderItems.stored "name" (OrderItems.other (snd u))).
  { rewrite Hr at 1. rewrite product_fold. reflexivity. }
  assert (Hc : UserProduct.category r
               = OrderItems.stored "category" (OrderItems.other (snd u))).
  { rewrite Hr at 1. rewrite product_fold. reflexivity. }
  exists (snd u). split; [|split; [exact Hn|split; [exact Hc|]]].
  - unfold joined_items. rewrite <- unwound_items, Hid, filter_fmap, Hf.
    reflexivity.
  - intros Hother. rewrite Hn, Hc, Hother. split; reflexivity.
Qed.

Lemma product_name_category_of_first_item_witness :
  let p1 := {| UserProduct._id := "P1"; UserProduct.product_id := "P1";
               UserProduct.name := None; UserProduct.category := None;
               UserProduct.unit_price := 50; UserProduct.quantity := 6;
               UserProduct.total_price := 140 |} in
  p1 ∈ UserProduct.pipeline sample
  ∧ ∃ it, OrderItems.other it = []
          ∧ UserProduct.name p1 = OrderItems.stored "name" (OrderItems.other it)
          ∧ UserProduct.category p1
            = OrderItems.stored "category" (OrderItems.other it).
Proof.
  intros p1.
  assert (Hin : p1 ∈ UserProduct.pipeline sample).
  { vm_compute. apply list_elem_of_here. }
  split; [exact Hin|].
  destruct (product_name_category_of_first_item sample p1 Hin)
    as (it & Hhead & Hn & Hc & _).
  exists it. split; [|split; [exact Hn|exact Hc]].
  vm_compute in Hhead. injection Hhead as <-. reflexivity.
Defined.

Example named_store_products :
  UserProduct.pipeline named_store =
    [{| UserProduct._id := "P1"; UserProduct.product_id := "P1";
        UserProduct.name := Some (VStr "Burger");
        UserProduct.category := Some (VStr "Food");
        UserProduct.unit_price := 50; UserProduct.quantity := 2;
        UserProduct.total_price := 100 |}].
Proof. vm_compute. reflexivity. Qed.

(** The fields the schema does declare are read as stored. *)
Example order_item_fields :
  OrderItems.field "product_id" alice_item = Some (VStr "P1")
  ∧ OrderItems.field "quantity" alice_item = Some (VNum 2)
  ∧ OrderItems.field "name" alice_item = None.
Proof. repeat split. Qed.

(** The scenario of the specification, for the product and the customer
    reports. *)
Example scenario_products :
  UserProduct.pipeline scenario =
    [{| UserProduct._id := "P1"; UserProduct.product_id := "P1";
        UserProduct.name := None; UserProduct.category := None;
        UserProduct.unit_price := 50; UserProduct.quantity := 2;
        UserProduct.total_price := 100 |}].
Proof. vm_compute. reflexivity. Qed.

Example scenario_customers :
  UserOrder.pipeline scenario =
    [{| Summary.customer_id := 10%N; Summary.fullName := "Alice";
        Summary.email := "alice@example.com"; Summary.phone := "012345678";
        Summary.totalOrders := 1; Summary.totalItems := 2;
        Summary.totalSpent := 100; Summary.lastOrderDate := 1709640000000 |}].
Proof. vm_compute. reflexivity. Qed.

(** ** The handlers *)

(** The four ways a handler runs. *)
Lemma handler_denied (op : Operation) (req : Request) (w : World) :
  truthy (optional_is_admin req) = false →
  handler op req w = (Done access_denied, w).
Proof.
  intros Ha. destruct op; cbn; unfold dailySalesReport, monthlySalesReport,
    orderStatusReport, userOrderReport, userProductReport, try_catch;
    rewrite Ha; reflexivity.
Qed.

Lemma handler_forbidden (op : Operation) (req : Request) (w : World)
    (u : ReqUser) :
  user req = Some u → truthy (is_admin u) = true → role u ≠ JsStr "admin" →
  handler op req w = (Done forbidden, w).
Proof.
  intros Hu Ha Hr. destruct op; cbn; unfold dailySalesReport,
    monthlySalesReport, orderStatusReport, userOrderReport, userProductReport,
    try_catch, optional_is_admin, user_role; rewrite Hu, Ha; cbn;
    unfold mbind, Handler_bind, mret, Handler_ret;
    (destruct (decide (role u ≠ JsStr "admin")); [reflexivity|contradiction]).
Qed.

Lemma handler_authorized (op : Operation) (req : Request) (w : World) :
  authorized req →
  handler op req w =
    (Done (if online w
           then json [("success", JBool true);
                      ("report", JReport (payload op (db w)))]
           else status_json 500 [("error", JString (failure_message op))]),
     queried w).
Proof.
  intros (u & Hu & Ha & Hr). destruct op; cbn; unfold dailySalesReport,
    monthlySalesReport, orderStatusReport, userOrderReport, userProductReport,
    try_catch, optional_is_admin, user_role; rewrite Hu, Ha; cbn;
    unfold mbind, Handler_bind, mret, Handler_ret, aggregate;
    (destruct (decide (role u ≠ JsStr "admin")); [contradiction|]);
    unfold queried; destruct (online w) eqn:Ho; reflexivity.
Qed.

Lemma not_authorized (req : Request) :
  ¬ authorized req →
  truthy (optional_is_admin req) = false
  ∨ ∃ u, user req = Some u ∧ truthy (is_admin u) = true
         ∧ role u ≠ JsStr "admin".
Proof.
  intros Hn. unfold optional_is_admin. destruct (user req) as [u|] eqn:Hu.
  - destruct (truthy (is_admin u)) eqn:Ha; [|by left].
    right. exists u. split; [reflexivity|]. split; [exact Ha|].
    intros Hr. apply Hn. exists u. auto.
  - by left.
Qed.

Example handler_runs :
  let w := {| db := scenario; online := true; queries := 0 |} in
  handler UserProducts admin_request w
  = (Done (json [("success", JBool true);
                 ("report", JReport (PUserProduct
                                       (UserProduct.pipeline scenario)))]),
     {| db := scenario; online := true; queries := 1 |})
  ∧ handler UserProducts anonymous_request w
    = (Done (status_json 403 [("error", JString "Access denied")]), w)
  ∧ handler UserProducts staff_request w
    = (Done (status_json 403 [("message", JString "Forbidden")]), w)
  ∧ handler UserProducts admin_request
      {| db := scenario; online := false; queries := 0 |}
    = (Done (status_json 500
               [("error", JString "Failed to generate user product report")]),
       {| db := scenario; online := false; queries := 1 |}).
Proof. repeat split. Qed.

(** C8, as worded, fails: a caller whose [is_admin] is set and whose role is
    not ["admin"] gets the body [{ message: "Forbidden" }], which is neither
    envelope. *)
Lemma forbidden_body_is_no_envelope :
  ¬ responds_with_envelope DailySales staff_request
      {| db := no_orders; online := true; queries := 0 |}.
Proof.
  intros (resp & w' & Hrun & Hshape). vm_compute in Hrun.
  injection Hrun as <- <-. cbn in Hshape.
  destruct Hshape as [[[=] _]|[[_ [msg [=]]]|[[=] _]]].
Qed.

(** C8, amended: a handler always responds, in one of four ways: status 200
    with a success envelope, for an authorized caller when the store
    answers; status 403 with [{ error: "Access denied" }] when [is_admin] is
    falsy or there is no user; status 403 with [{ message: "Forbidden" }]
    when [is_admin] is truthy and the role is not ["admin"]; status 500 with
    a failure envelope, for an authorized caller when the query fails. *)
Theorem handler_response_shapes (op : Operation) (req : Request) (w : World) :
  ∃ resp w',
    handler op req w = (Done resp, w')
    ∧ ((status resp = 200 ∧ success_envelope (body resp)
        ∧ authorized req ∧ online w = true)
       ∨ (status resp = 403
          ∧ body resp = [("error", JString "Access denied")]
          ∧ truthy (optional_is_admin req) = false)
       ∨ (status resp = 403
          ∧ body resp = [("message", JString "Forbidden")]
          ∧ truthy (optional_is_admin req) = true ∧ ¬ authorized req)
       ∨ (status resp = 500 ∧ failure_envelope (body resp)
          ∧ authorized req ∧ online w = false)).
Proof.
  destruct (decide (authorized req)) as [Hauth|Hno].
  - eexists _, _. split; [apply handler_authorized, Hauth|].
    destruct (online w).
    + left. repeat split; [|exact Hauth]. eexists. reflexivity.
    + right. right. right. repeat split; [|exact Hauth]. eexists. reflexivity.
  - destruct (not_authorized req Hno) as [Ha|(u & Hu & Ha & Hr)].
    + eexists _, _. split; [apply handler_denied, Ha|].
      right. left. repeat split. exact Ha.
    + eexists _, _. split; [apply (handler_forbidden _ _ _ u); assumption|].
      right. right. left. repeat split; [|exact Hno].
      unfold optional_is_admin. rewrite Hu. exact Ha.
Qed.

(** C10: a handler answers 200 only to an authorized caller; any other
    caller gets status 403 and the world is left as it was, no query having
    been issued, while an authorized call issues one; the body is
    [{ error: "Access denied" }] when [is_admin] is falsy or the user is
    absent, and [{ message: "Forbidden" }] when [is_admin] is truthy and the
    role is not ["admin"]. *)
Theorem handler_admin_gate (op : Operation) (req : Request) (w : World) :
  ∃ resp w',
    handler op req w = (Done resp, w')
    ∧ (status resp = 200 → authorized req)
    ∧ (¬ authorized req → status resp = 403 ∧ w' = w)
    ∧ (authorized req → queries w' = S (queries w))
    ∧ (truthy (optional_is_admin req) = false →
       body resp = [("error", JString "Access denied")])
    ∧ (truthy (optional_is_admin req) = true → ¬ authorized req →
       body resp = [("message", JString "Forbidden")]).
Proof.
  destruct (decide (authorized req)) as [Hauth|Hno].
  - eexists _, _. split; [apply handler_authorized, Hauth|].
    split; [auto|]. split; [contradiction|]. split; [reflexivity|].
    split; [|contradiction].
    destruct Hauth as (u & Hu & Ha & _). unfold optional_is_admin.
    rewrite Hu, Ha. discriminate.
  - destruct (not_authorized req Hno) as [Ha|(u & Hu & Ha & Hr)].
    + eexists _, _. split; [apply handler_denied, Ha|].
      split; [discriminate|]. split; [auto|]. split; [contradiction|].
      split; [reflexivity|]. rewrite Ha. discriminate.
    + eexists _, _. split; [apply (handler_forbidden _ _ _ u); assumption|].
      split; [discriminate|]. split; [auto|]. split; [contradiction|].
      split; [|reflexivity].
      unfold optional_is_admin. rewrite Hu, Ha. discriminate.
Qed.

(** ** The order of the sales reports *)

Lemma ascii_compare_lt_trans (a b c : ascii) :
  Ascii.compare a b = Lt → Ascii.compare b c = Lt → Ascii.compare a c = Lt.
Proof.
  unfold Ascii.compare. rewrite !N.compare_lt_iff. lia.
Qed.

Lemma string_compare_lt_trans (s1 s2 s3 : string) :
  String.compare s1 s2 = Lt → String.compare s2 s3 = Lt →
  String.compare s1 s3 = Lt.
Proof.
  revert s2 s3. induction s1 as [|a s1 IH]; intros [|b s2] [|c s3];
    cbn [String.compare]; try discriminate; try reflexivity.
  destruct (Ascii.compare a b) eqn:Hab; try discriminate;
    destruct (Ascii.compare b c) eqn:Hbc; try discriminate; intros H1 H2.
  - apply Ascii.compare_eq_iff in Hab, Hbc. subst.
    rewrite (proj2 (N.compare_eq_iff _ _) eq_refl : Ascii.compare c c = Eq).
    eapply IH; eassumption.
  - apply Ascii.compare_eq_iff in Hab. subst. rewrite Hbc. reflexivity.
  - apply Ascii.compare_eq_iff in Hbc. subst. rewrite Hab. reflexivity.
  - rewrite (ascii_compare_lt_trans a b c Hab Hbc). reflexivity.
Qed.

#[global] Instance str_le_transitive : Transitive str_le.
Proof.
  intros s1 s2 s3. unfold str_le, String.leb.
  destruct (String.compare s1 s2) eqn:H12; [| |discriminate].
  - apply String.compare_eq_iff in H12. subst. auto.
  - destruct (String.compare s2 s3) eqn:H23; [| |discriminate]; intros _ _.
    + apply String.compare_eq_iff in H23. subst. rewrite H12. reflexivity.
    + rewrite (string_compare_lt_trans _ _ _ H12 H23). reflexivity.
Qed.

#[global] Instance str_le_total : Total str_le.
Proof. intros s1 s2. apply String.leb_total. Qed.

#[global] Instance str_desc_transitive {A} (k : A → string) :
  Transitive (str_desc k).
Proof. intros x y z Hxy Hyz. unfold str_desc in *. by etrans. Qed.

#[global] Instance str_desc_total {A} (k : A → string) : Total (str_desc k).
Proof. intros x y. unfold str_desc. destruct (total str_le (k x) (k y)); auto. Qed.

#[global] Instance str_asc_transitive {A} (k : A → string) :
  Transitive (str_asc k).
Proof. intros x y z Hxy Hyz. unfold str_asc in *. by etrans. Qed.

#[global] Instance str_asc_total {A} (k : A → string) : Total (str_asc k).
Proof. intros x y. unfold str_asc. apply (total str_le). Qed.

(** A list sorted by a key and with pairwise distinct keys is strictly
    sorted. *)
Lemma StronglySorted_distinct_keys {A} (k : A → string) (l : list A) :
  StronglySorted (str_desc k) l → NoDup (k <$> l) →
  StronglySorted (λ x y, str_gt (k x) (k y)) l.
Proof.
  induction 1 as [|x l Hl IH Hx]; intros Hnd; [constructor|].
  rewrite fmap_cons in Hnd. apply NoDup_cons in Hnd as [Hfresh Hnd].
  constructor; [auto|].
  rewrite Forall_forall in Hx. apply Forall_forall. intros y Hy.
  split; [exact (Hx y Hy)|].
  intros Heq. apply Hfresh. rewrite Heq. by apply list_elem_of_fmap_2.
Qed.

Lemma daily_strictly_sorted (db : DB.t) :
  StronglySorted
    (λ b1 b2, str_gt (Daily.date (Daily._id b1)) (Daily.date (Daily._id b2)))
    (Daily.pipeline db).
Proof.
  apply (StronglySorted_distinct_keys (λ b, Daily.date (Daily._id b))).
  - apply (StronglySorted_merge_sort _).
  - unfold Daily.pipeline.
    rewrite sort_str_desc_Permutation, <- list_fmap_compose.
    pose proof (NoDup_keys_group Daily.key Daily.init Daily.step
                  (Daily.join db <$> Daily.matched db)) as Hnd.
    assert (Hinj : Inj (=) (=) Daily.date) by (intros [d1] [d2] [= ->]; done).
    apply (NoDup_fmap_2 Daily.date) in Hnd.
    rewrite <- list_fmap_compose in Hnd. exact Hnd.
Qed.

Lemma monthly_strictly_sorted (db : DB.t) :
  StronglySorted (λ b1 b2, str_gt (Monthly._id b1) (Monthly._id b2))
    (Monthly.pipeline db).
Proof.
  apply (StronglySorted_distinct_keys Monthly._id).
  - apply (StronglySorted_merge_sort _).
  - unfold Monthly.pipeline.
    rewrite sort_str_desc_Permutation, <- list_fmap_compose.
    apply (NoDup_keys_group Monthly.key Monthly.init Monthly.step).
Qed.

(** ** Dates in chronological order *)

Lemma year_of_era_range (doe : Z) :
  0 ≤ doe < 146097 →
  0 ≤ (doe - doe / 1460 + doe / 36524 - doe / 146096) / 365 ≤ 399.
Proof. intros Hdoe. Z.div_mod_to_equations. lia. Qed.

Lemma year_day_mono (doe1 doe2 : Z) :
  0 ≤ doe1 ≤ doe2 → doe2 < 146097 →
  let yoe1 := (doe1 - doe1 / 1460 + doe1 / 36524 - doe1 / 146096) / 365 in
  let yoe2 := (doe2 - doe2 / 1460 + doe2 / 36524 - doe2 / 146096) / 365 in
  let doy1 := doe1 - (365 * yoe1 + yoe1 / 4 - yoe1 / 100) in
  let doy2 := doe2 - (365 * yoe2 + yoe2 / 4 - yoe2 / 100) in
  yoe1 < yoe2 ∨ (yoe1 = yoe2 ∧ doy1 ≤ doy2).
Proof.
  intros H1 H2 yoe1 yoe2 doy1 doy2. subst doy1 doy2 yoe1 yoe2.
  Z.div_mod_to_equations. lia.
Qed.

Lemma month_day_mono (doy1 doy2 : Z) :
  0 ≤ doy1 ≤ doy2 → doy2 ≤ 365 →
  let mp1 := (5 * doy1 + 2) / 153 in
  let mp2 := (5 * doy2 + 2) / 153 in
  let d1 := doy1 - (153 * mp1 + 2) / 5 + 1 in
  let d2 := doy2 - (153 * mp2 + 2) / 5 + 1 in
  0 ≤ mp1 ∧ mp2 ≤ 11 ∧ (mp1 < mp2 ∨ (mp1 = mp2 ∧ d1 ≤ d2)).
Proof.
  intros H1 H2 mp1 mp2 d1 d2. subst d1 d2 mp1 mp2.
  Z.div_mod_to_equations. lia.
Qed.

Lemma civil_from_days_mono (days1 days2 : Z) :
  days1 ≤ days2 → date_le (civil_from_days days1) (civil_from_days days2).
Proof.
  intros Hle. unfold date_le, civil_from_days. cbv zeta. cbn [fst snd].
  assert (He : (days1 + 719468) / 146097 < (days2 + 719468) / 146097
               ∨ ((days1 + 719468) / 146097 = (days2 + 719468) / 146097
                  ∧ (days1 + 719468) mod 146097 ≤ (days2 + 719468) mod 146097))
    by (Z.div_mod_to_equations; lia).
  pose proof (Z.mod_pos_bound (days1 + 719468) 146097 ltac:(lia)) as Hd1.
  pose proof (Z.mod_pos_bound (days2 + 719468) 146097 ltac:(lia)) as Hd2.
  set (era1 := (days1 + 719468) / 146097) in *.
  set (era2 := (days2 + 719468) / 146097) in *.
  set (doe1 := (days1 + 719468) mod 146097) in *.
  set (doe2 := (days2 + 719468) mod 146097) in *.
  clearbody era1 era2 doe1 doe2.
  pose proof (year_of_era_range doe1 Hd1) as Hy1.
  pose proof (year_of_era_range doe2 Hd2) as Hy2.
  pose proof (day_of_year_range doe1 Hd1) as Hdoy1.
  pose proof (day_of_year_range doe2 Hd2) as Hdoy2.
  cbv zeta in Hdoy1, Hdoy2.
  assert (Hyd : era1 = era2 →
    (doe1 - doe1 / 1460 + doe1 / 36524 - doe1 / 146096) / 365
    < (doe2 - doe2 / 1460 + doe2 / 36524 - doe2 / 146096) / 365
    ∨ ((doe1 - doe1 / 1460 + doe1 / 36524 - doe1 / 146096) / 365
       = (doe2 - doe2 / 1460 + doe2 / 36524 - doe2 / 146096) / 365
       ∧ doe1 - (365 * ((doe1 - doe1 / 1460 + doe1 / 36524 - doe1 / 146096) / 365)
                 + (doe1 - doe1 / 1460 + doe1 / 36524 - doe1 / 146096) / 365 / 4
                 - (doe1 - doe1 / 1460 + doe1 / 36524 - doe1 / 146096) / 365 / 100)
         ≤ doe2 - (365 * ((doe2 - doe2 / 1460 + doe2 / 36524 - doe2 / 146096) / 365)
                 + (doe2 - doe2 / 1460 + doe2 / 36524 - doe2 / 146096) / 365 / 4
                 - (doe2 - doe2 / 1460 + doe2 / 36524 - doe2 / 146096) / 365 / 100))).
  { intros Heq. apply (year_day_mono doe1 doe2); lia. }
  set (yoe1 := (doe1 - doe1 / 1460 + doe1 / 36524 - doe1 / 146096) / 365) in *.
  set (yoe2 := (doe2 - doe2 / 1460 + doe2 / 36524 - doe2 / 146096) / 365) in *.
  set (doy1 := doe1 - (365 * yoe1 + yoe1 / 4 - yoe1 / 100)) in *.
  set (doy2 := doe2 - (365 * yoe2 + yoe2 / 4 - yoe2 / 100)) in *.
  assert (Hera : era1 ≤ era2) by lia.
  clearbody yoe1 yoe2 doy1 doy2. clear He Hd1 Hd2 doe1 doe2 Hle.
  pose proof (month_day_of_year_range doy1 Hdoy1) as Hr1.
  pose proof (month_day_of_year_range doy2 Hdoy2) as Hr2.
  cbv zeta in Hr1, Hr2.
  assert (Hmd : doy1 ≤ doy2 →
     0 ≤ (5 * doy1 + 2) / 153 ∧ (5 * doy2 + 2) / 153 ≤ 11
     ∧ ((5 * doy1 + 2) / 153 < (5 * doy2 + 2) / 153
        ∨ ((5 * doy1 + 2) / 153 = (5 * doy2 + 2) / 153
           ∧ doy1 - (153 * ((5 * doy1 + 2) / 153) + 2) / 5 + 1
             ≤ doy2 - (153 * ((5 * doy2 + 2) / 153) + 2) / 5 + 1))).
  { intros Hd. apply (month_day_mono doy1 doy2); lia. }
  set (mp1 := (5 * doy1 + 2) / 153) in *.
  set (mp2 := (5 * doy2 + 2) / 153) in *.
  set (d1 := doy1 - (153 * mp1 + 2) / 5 + 1) in *.
  set (d2 := doy2 - (153 * mp2 + 2) / 5 + 1) in *.
  clearbody mp1 mp2 d1 d2.
  destruct (Z.ltb_spec mp1 10), (Z.ltb_spec mp2 10);
    repeat match goal with
           | |- context [?a <=? ?b] => destruct (Z.leb_spec a b)
           end; lia.
Qed.

Lemma digit_compare (a b : Z) :
  Ascii.compare (digit a) (digit b) = (a mod 10 ?= b mod 10).
Proof.
  unfold Ascii.compare, digit.
  pose proof (Z.mod_pos_bound a 10 ltac:(lia)) as Ha.
  pose proof (Z.mod_pos_bound b 10 ltac:(lia)) as Hb.
  unfold ascii_of_nat. rewrite !N_ascii_embedding by lia.
  destruct (Z.compare_spec (a mod 10) (b mod 10)) as [H|H|H];
    [apply N.compare_eq_iff|apply N.compare_lt_iff|apply N.compare_gt_iff]; lia.
Qed.

Lemma pad2_compare (a b : Z) (s1 s2 : string) :
  0 ≤ a < 100 → 0 ≤ b < 100 →
  String.compare (pad2 a +:+ s1) (pad2 b +:+ s2) =
    match a ?= b with Eq => String.compare s1 s2 | c => c end.
Proof.
  intros Ha Hb. unfold pad2.
  cbv beta iota fix delta [String.append]. cbn [String.compare].
  rewrite !digit_compare.
  destruct (Z.compare_spec a b) as [H|H|H];
    destruct (Z.compare_spec ((a / 10) mod 10) ((b / 10) mod 10)) as [H1|H1|H1];
    destruct (Z.compare_spec (a mod 10) (b mod 10)) as [H0|H0|H0];
    try reflexivity; exfalso; revert H H1 H0; Z.div_mod_to_equations; lia.
Qed.

Lemma pad4_split (n : Z) (s : string) :
  pad4 n +:+ s = pad2 (n / 100) +:+ pad2 (n mod 100) +:+ s.
Proof.
  unfold pad4, pad2. cbv beta iota fix delta [String.append].
  assert (Hd : ∀ x y, x mod 10 = y mod 10 → digit x = digit y)
    by (intros x y Hxy; unfold digit; rewrite Hxy; reflexivity).
  f_equal; [apply Hd|f_equal; f_equal; [apply Hd|f_equal; apply Hd]];
    Z.div_mod_to_equations; lia.
Qed.

Lemma pad4_compare (a b : Z) (s1 s2 : string) :
  0 ≤ a < 10000 → 0 ≤ b < 10000 →
  String.compare (pad4 a +:+ s1) (pad4 b +:+ s2) =
    match a ?= b with Eq => String.compare s1 s2 | c => c end.
Proof.
  intros Ha Hb. rewrite !pad4_split.
  rewrite !pad2_compare by (Z.div_mod_to_equations; lia).
  destruct (Z.compare_spec a b) as [H|H|H];
    destruct (Z.compare_spec (a / 100) (b / 100)) as [H1|H1|H1];
    destruct (Z.compare_spec (a mod 100) (b mod 100)) as [H0|H0|H0];
    try reflexivity; exfalso; revert H H1 H0; Z.div_mod_to_equations; lia.
Qed.

Lemma pad2_compare_end (a b : Z) :
  0 ≤ a < 100 → 0 ≤ b < 100 → String.compare (pad2 a) (pad2 b) = (a ?= b).
Proof.
  intros Ha Hb.
  transitivity (String.compare (pad2 a +:+ "") (pad2 b +:+ ""));
    [reflexivity|].
  rewrite pad2_compare by assumption. destruct (a ?= b); reflexivity.
Qed.

Lemma civil_of_date_mono (ms1 ms2 : Z) :
  ms1 ≤ ms2 → date_le (civil_of_date ms1) (civil_of_date ms2).
Proof.
  intros Hle. apply civil_from_days_mono, Z.div_le_mono; lia.
Qed.

(** Within the years that [%Y] renders, a later timestamp never has a
    smaller date string. *)
Lemma dateToString_Ymd_mono (ms1 ms2 : Z) :
  renders ms1 → renders ms2 → ms1 ≤ ms2 →
  str_le (dateToString_Ymd ms1) (dateToString_Ymd ms2).
Proof.
  intros Hy1 Hy2 Hle. apply civil_of_date_mono in Hle.
  pose proof (month_day_range ms1) as [Hm1 Hd1].
  pose proof (month_day_range ms2) as [Hm2 Hd2].
  unfold renders, dateToString_Ymd, year_of_date, month_of_date, day_of_date,
    date_le, str_le, String.leb in *.
  destruct (civil_of_date ms1) as [[y1 m1] d1].
  destruct (civil_of_date ms2) as [[y2 m2] d2]. cbn [fst snd] in *.
  rewrite pad4_compare by lia.
  cbv beta iota fix delta [String.append]. cbn [String.compare].
  change (Ascii.compare "-" "-") with Eq. cbv iota.
  change (String "-" (pad2 d1)) with ("-" +:+ pad2 d1).
  change (String "-" (pad2 d2)) with ("-" +:+ pad2 d2).
  rewrite pad2_compare by lia.
  cbv beta iota fix delta [String.append]. cbn [String.compare].
  change (Ascii.compare "-" "-") with Eq. cbv iota.
  rewrite pad2_compare_end by lia.
  destruct (Z.compare_spec y1 y2), (Z.compare_spec m1 m2),
    (Z.compare_spec d1 d2); first [reflexivity|lia].
Qed.

Lemma dateToString_Ym_mono (ms1 ms2 : Z) :
  renders ms1 → renders ms2 → ms1 ≤ ms2 →
  str_le (dateToString_Ym ms1) (dateToString_Ym ms2).
Proof.
  intros Hy1 Hy2 Hle. apply civil_of_date_mono in Hle.
  pose proof (month_day_range ms1) as [Hm1 Hd1].
  pose proof (month_day_range ms2) as [Hm2 Hd2].
  unfold renders, dateToString_Ym, year_of_date, month_of_date, day_of_date,
    date_le, str_le, String.leb in *.
  destruct (civil_of_date ms1) as [[y1 m1] d1].
  destruct (civil_of_date ms2) as [[y2 m2] d2]. cbn [fst snd] in *.
  rewrite pad4_compare by lia.
  cbv beta iota fix delta [String.append]. cbn [String.compare].
  change (Ascii.compare "-" "-") with Eq. cbv iota.
  rewrite pad2_compare_end by lia.
  destruct (Z.compare_spec y1 y2), (Z.compare_spec m1 m2);
    first [reflexivity|lia].
Qed.

Lemma StronglySorted_weaken {A} (R1 R2 : relation A) (l : list A) :
  (∀ x y, x ∈ l → y ∈ l → R1 x y → R2 x y) →
  StronglySorted R1 l → StronglySorted R2 l.
Proof.
  intros Himp Hs. induction Hs as [|x l Hl IH Hx]; [constructor|].
  constructor.
  - apply IH. intros y z Hy Hz. apply Himp; by apply list_elem_of_further.
  - rewrite Forall_forall in Hx. apply Forall_forall. intros y Hy.
    apply Himp; [apply list_elem_of_here|by apply list_elem_of_further|auto].
Qed.

Lemma str_gt_not_le (s1 s2 : string) : str_gt s1 s2 → ¬ str_le s1 s2.
Proof.
  intros [Hle Hne] Hle'. apply Hne. by apply String.leb_antisym.
Qed.

(** X1: the daily report lists its buckets by strictly decreasing date
    string; and when every order was created in a year that [%Y] renders,
    the list is in reverse chronological order: the orders of a bucket were
    all created after those of every later bucket. *)
Theorem daily_newest_first (db : DB.t) :
  StronglySorted
    (λ b1 b2, str_gt (Daily.date (Daily._id b1)) (Daily.date (Daily._id b2)))
    (Daily.pipeline db)
  ∧ ((∀ o, o ∈ DB.orders db → renders (Order.createdAt o)) →
     StronglySorted
       (λ b1 b2, ∀ o1 o2,
          o1 ∈ orders_of_day db (Daily.date (Daily._id b1)) →
          o2 ∈ orders_of_day db (Daily.date (Daily._id b2)) →
          Order.createdAt o2 < Order.createdAt o1)
       (Daily.pipeline db)).
Proof.
  split; [apply daily_strictly_sorted|]. intros Hyears.
  eapply StronglySorted_weaken; [|apply daily_strictly_sorted].
  intros b1 b2 _ _ Hgt o1 o2 Ho1 Ho2.
  apply list_elem_of_filter in Ho1 as [Hd1 [_ Ho1]%list_elem_of_filter].
  apply list_elem_of_filter in Ho2 as [Hd2 [_ Ho2]%list_elem_of_filter].
  destruct (Z.lt_ge_cases (Order.createdAt o2) (Order.createdAt o1)) as [|Hge];
    [assumption|].
  exfalso. apply (str_gt_not_le _ _ Hgt). rewrite <- Hd1, <- Hd2.
  apply dateToString_Ymd_mono; auto.
Qed.

Lemma daily_newest_first_witness :
  StronglySorted
    (λ b1 b2, ∀ o1 o2,
       o1 ∈ orders_of_day sample (Daily.date (Daily._id b1)) →
       o2 ∈ orders_of_day sample (Daily.date (Daily._id b2)) →
       Order.createdAt o2 < Order.createdAt o1)
    (Daily.pipeline sample).
Proof.
  apply (proj2 (daily_newest_first sample)). intros o Ho.
  repeat (apply elem_of_cons in Ho as [->|Ho]; [vm_compute; split; congruence|]).
  by apply elem_of_nil in Ho.
Defined.

(** X2: the monthly report lists its buckets by strictly decreasing month
    string; and when every order was created in a year that [%Y] renders,
    the orders of a bucket were all created after those of every later
    bucket. *)
Theorem monthly_newest_first (db : DB.t) :
  StronglySorted (λ b1 b2, str_gt (Monthly._id b1) (Monthly._id b2))
    (Monthly.pipeline db)
  ∧ ((∀ o, o ∈ DB.orders db → renders (Order.createdAt o)) →
     StronglySorted
       (λ b1 b2, ∀ o1 o2,
          o1 ∈ orders_of_month db (Monthly._id b1) →
          o2 ∈ orders_of_month db (Monthly._id b2) →
          Order.createdAt o2 < Order.createdAt o1)
       (Monthly.pipeline db)).
Proof.
  split; [apply monthly_strictly_sorted|]. intros Hyears.
  eapply StronglySorted_weaken; [|apply monthly_strictly_sorted].
  intros b1 b2 _ _ Hgt o1 o2 Ho1 Ho2.
  apply list_elem_of_filter in Ho1 as [Hd1 [_ Ho1]%list_elem_of_filter].
  apply list_elem_of_filter in Ho2 as [Hd2 [_ Ho2]%list_elem_of_filter].
  destruct (Z.lt_ge_cases (Order.createdAt o2) (Order.createdAt o1)) as [|Hge];
    [assumption|].
  exfalso. apply (str_gt_not_le _ _ Hgt). rewrite <- Hd1, <- Hd2.
  apply dateToString_Ym_mono; auto.
Qed.

Lemma monthly_newest_first_witness :
  StronglySorted
    (λ b1 b2, ∀ o1 o2,
       o1 ∈ orders_of_month sample (Monthly._id b1) →
       o2 ∈ orders_of_month sample (Monthly._id b2) →
       Order.createdAt o2 < Order.createdAt o1)
    (Monthly.pipeline sample).
Proof.
  apply (proj2 (monthly_newest_first sample)). intros o Ho.
  repeat (apply elem_of_cons in Ho as [->|Ho]; [vm_compute; split; congruence|]).
  by apply elem_of_nil in Ho.
Defined.

(** ** The two sales reports side by side *)

Lemma month_prefix_Ymd (ms : Z) :
  month_prefix (dateToString_Ymd ms) = dateToString_Ym ms.
Proof.
  unfold month_prefix, dateToString_Ymd, dateToString_Ym.
  destruct (civil_of_date ms) as [[y m] d]. unfold pad4, pad2.
  cbv beta iota fix delta [String.append]. reflexivity.
Qed.

Section GroupFilter.
Context {Doc K Acc : Type} `{EqDecision K}.
Variable key : Doc → K.
Variable init : Doc → Acc.
Variable step : Acc → Doc → Acc.
Variable Q : K → Prop.
Context `{∀ k, Decision (Q k)}.

Lemma filter_upsert (k : K) (d : Doc) (tbl : list (K * Acc)) :
  filter (λ g, Q (fst g)) (upsert init step k d tbl) =
    if decide (Q k)
    then upsert init step k d (filter (λ g, Q (fst g)) tbl)
    else filter (λ g, Q (fst g)) tbl.
Proof.
  induction tbl as [|[k0 a0] tbl IH]; cbn [upsert].
  - rewrite filter_cons, filter_nil. cbn [fst]. by destruct (decide (Q k)).
  - destruct (decide (k = k0)) as [->|Hne].
    + rewrite !filter_cons. cbn [fst].
      destruct (decide (Q k0)); [|reflexivity].
      cbn [upsert]. rewrite decide_True by reflexivity. reflexivity.
    + rewrite !filter_cons, IH. cbn [fst].
      destruct (decide (Q k0)), (decide (Q k)); try reflexivity.
      cbn [upsert]. rewrite decide_False by exact Hne. reflexivity.
Qed.

(** Grouping the documents whose key satisfies [Q] gives the groups whose
    key satisfies [Q]. *)
Lemma group_filter_key (docs : list Doc) :
  filter (λ g, Q (fst g)) (group key init step docs) =
    group key init step (filter (λ d, Q (key d)) docs).
Proof.
  induction docs as [|d docs IH] using rev_ind; [reflexivity|].
  rewrite group_snoc, filter_upsert, filter_app, IH, filter_cons, filter_nil.
  destruct (decide (Q (key d))).
  - rewrite group_snoc. reflexivity.
  - rewrite app_nil_r. reflexivity.
Qed.
End GroupFilter.

Lemma monthly_groups (db : DB.t) (k : string) (a : Monthly.Acc) :
  (k, a) ∈ group Monthly.key Monthly.init Monthly.step (Monthly.matched db) →
  orders_of_month db k ≠ [] ∧ Monthly.bucket (k, a) = month_bucket db k.
Proof.
  intros (o & os & Hf & ->)%elem_of_group.
  unfold month_bucket, orders_of_month.
  unfold Monthly.matched, match_status, Monthly.key in Hf. rewrite Hf.
  split; [discriminate|].
  rewrite monthly_fold, fmap_cons, sumZ_cons, length_cons.
  unfold Monthly.bucket. cbn. f_equal. lia.
Qed.

Lemma elem_of_monthly (db : DB.t) (b : Monthly.Bucket) :
  b ∈ Monthly.pipeline db →
  orders_of_month db (Monthly._id b) ≠ []
  ∧ b = month_bucket db (Monthly._id b).
Proof.
  unfold Monthly.pipeline.
  rewrite sort_str_desc_Permutation, list_elem_of_fmap.
  intros ([k a] & -> & Hg). apply monthly_groups in Hg. exact Hg.
Qed.

(** The daily buckets of one month count the orders of the month. *)
Lemma daily_buckets_of_month (db : DB.t) (m : string) :
  let days := filter (λ b, month_prefix (Daily.date (Daily._id b)) = m)
                (Daily.pipeline db) in
  sumZ (Daily.totalOrders <$> days)
  = Z.of_nat (length (orders_of_month db m)).
Proof.
  intros days.
  assert (Hdays : days ≡ₚ
    Daily.bucket <$>
      group Daily.key Daily.init Daily.step
        (Daily.join db <$> orders_of_month db m)).
  { unfold days, Daily.pipeline. rewrite sort_str_desc_Permutation.
    rewrite filter_fmap.
    pose proof (group_filter_key Daily.key Daily.init Daily.step
                  (λ k, month_prefix (Daily.date k) = m)
                  (Daily.join db <$> Daily.matched db)) as Hg.
    cbv beta in Hg.
    change (filter (λ g, month_prefix (Daily.date (fst g)) = m)
              (group Daily.key Daily.init Daily.step
                 (Daily.join db <$> Daily.matched db))
            = group Daily.key Daily.init Daily.step
                (filter (λ j, month_prefix (Daily.date (Daily.key j)) = m)
                   (Daily.join db <$> Daily.matched db))) in Hg.
    change (Daily.bucket <$>
              filter (λ g, month_prefix (Daily.date (fst g)) = m)
                (group Daily.key Daily.init Daily.step
                   (Daily.join db <$> Daily.matched db))
            ≡ₚ Daily.bucket <$>
                 group Daily.key Daily.init Daily.step
                   (Daily.join db <$> orders_of_month db m)).
    rewrite Hg.
    rewrite filter_fmap. unfold orders_of_month, Daily.matched, match_status.
    erewrite list_filter_iff; [reflexivity|].
    intros o. cbn. rewrite month_prefix_Ymd. reflexivity. }
  rewrite (sumZ_Permutation _ _ (fmap_Permutation _ _ _ Hdays)).
  rewrite <- list_fmap_compose.
  rewrite (total_group Daily.key Daily.init Daily.step
             Daily.acc_totalOrders (λ _, 1)); [|reflexivity|reflexivity].
  rewrite sumZ_ones, length_fmap. reflexivity.
Qed.

(** X3: the [totalOrders] of a month bucket of the monthly report is the
    sum of the [totalOrders] of the day buckets of the daily report whose
    date lies in that month, and there is such a day bucket. *)
Theorem monthly_is_sum_of_daily (db : DB.t) (b : Monthly.Bucket) :
  b ∈ Monthly.pipeline db →
  let days := filter (λ d, month_prefix (Daily.date (Daily._id d))
                           = Monthly._id b)
                (Daily.pipeline db) in
  Monthly.totalOrders b = sumZ (Daily.totalOrders <$> days)
  ∧ days ≠ [].
Proof.
  intros [Hne Hb]%elem_of_monthly days.
  pose proof (daily_buckets_of_month db (Monthly._id b)) as Hn.
  cbv zeta in Hn. fold days in Hn. rewrite Hn.
  split.
  - apply (f_equal Monthly.totalOrders) in Hb. exact Hb.
  - intros Hnil. rewrite Hnil in Hn. cbn in Hn. rewrite sumZ_nil in Hn.
    destruct (orders_of_month db (Monthly._id b)); [done|].
    rewrite length_cons in Hn. lia.
Qed.

Lemma monthly_is_sum_of_daily_witness :
  let april := {| Monthly._id := "2024-04"; Monthly.totalOrders := 2;
                  Monthly.totalSales := 55 |} in
  let days := filter (λ d, month_prefix (Daily.date (Daily._id d)) = "2024-04")
                (Daily.pipeline sample) in
  april ∈ Monthly.pipeline sample
  ∧ Monthly.totalOrders april = sumZ (Daily.totalOrders <$> days)
  ∧ days ≠ [].
Proof.
  intros april days.
  assert (Hin : april ∈ Monthly.pipeline sample).
  { vm_compute. apply list_elem_of_here. }
  split; [exact Hin|]. exact (monthly_is_sum_of_daily sample april Hin).
Defined.

Example april_days :
  (λ d, (Daily.date (Daily._id d), Daily.totalOrders d))
    <$> filter (λ d, month_prefix (Daily.date (Daily._id d)) = "2024-04")
          (Daily.pipeline sample)
  = [("2024-04-02", 1); ("2024-04-01", 1)].
Proof. vm_compute. reflexivity. Qed.

(** X4: both sales reports count every order that passes the status
    filter exactly once: over all buckets, the [totalOrders] of the monthly
    report and those of the daily report each add up to the number of
    passing orders. *)
Theorem sales_reports_account_for_all (db : DB.t) :
  let passing :=
    filter (λ o, Order.status o ∈
                   ["completed"; "pending"; "confirmed"; "cancelled"])
      (DB.orders db) in
  sumZ (Monthly.totalOrders <$> Monthly.pipeline db)
  = Z.of_nat (length passing)
  ∧ sumZ (Daily.totalOrders <$> Daily.pipeline db)
    = sumZ (Monthly.totalOrders <$> Monthly.pipeline db).
Proof.
  intros passing.
  assert (Hm : sumZ (Monthly.totalOrders <$> Monthly.pipeline db)
               = Z.of_nat (length passing)).
  { unfold Monthly.pipeline.
    rewrite (sumZ_Permutation _ _
               (fmap_Permutation _ _ _ (sort_str_desc_Permutation _ _))).
    rewrite <- list_fmap_compose.
    rewrite (total_group Monthly.key Monthly.init Monthly.step
               Monthly.acc_totalOrders (λ _, 1)); [|reflexivity|reflexivity].
    rewrite sumZ_ones. reflexivity. }
  split; [exact Hm|]. rewrite Hm. unfold Daily.pipeline.
  rewrite (sumZ_Permutation _ _
             (fmap_Permutation _ _ _ (sort_str_desc_Permutation _ _))).
  rewrite <- list_fmap_compose.
  rewrite (total_group Daily.key Daily.init Daily.step
             Daily.acc_totalOrders (λ _, 1)); [|reflexivity|reflexivity].
  rewrite sumZ_ones, length_fmap. reflexivity.
Qed.

(** X5: in every bucket of the daily report the three fields agree:
    [orders] is not empty and lists the passing orders of the day in scan
    order, [totalOrders] is its length and [totalSales] the sum of its
    [total]s. *)
Theorem daily_bucket_consistent (db : DB.t) (b : Daily.Bucket) :
  b ∈ Daily.pipeline db →
  Daily.orders b
  = (λ o, Daily.entry (Daily.join db o))
      <$> orders_of_day db (Daily.date (Daily._id b))
  ∧ Daily.orders b ≠ []
  ∧ Daily.totalOrders b = Z.of_nat (length (Daily.orders b))
  ∧ Daily.totalSales b = sumZ (Daily.total <$> Daily.orders b).
Proof.
  intros [Hne Hb]%elem_of_daily.
  set (d := Daily.date (Daily._id b)) in *.
  assert (Ho : Daily.orders b
               = (λ o, Daily.entry (Daily.join db o)) <$> orders_of_day db d)
    by (apply (f_equal Daily.orders) in Hb; exact Hb).
  split; [exact Ho|]. rewrite Ho. split; [|split].
  - destruct (orders_of_day db d); [done|discriminate].
  - rewrite length_fmap. apply (f_equal Daily.totalOrders) in Hb. exact Hb.
  - rewrite <- list_fmap_compose.
    apply (f_equal Daily.totalSales) in Hb. exact Hb.
Qed.

Lemma daily_bucket_consistent_witness :
  ∃ b, b ∈ Daily.pipeline sample
       ∧ Daily.date (Daily._id b) = "2024-03-05"
       ∧ Daily.totalOrders b = Z.of_nat (length (Daily.orders b))
       ∧ Daily.totalSales b = sumZ (Daily.total <$> Daily.orders b).
Proof.
  assert (Hin : day_bucket sample "2024-03-05" ∈ Daily.pipeline sample).
  { vm_compute. do 2 apply list_elem_of_further. apply list_elem_of_here. }
  exists (day_bucket sample "2024-03-05"). split; [exact Hin|].
  split; [reflexivity|].
  destruct (daily_bucket_consistent sample _ Hin) as (_ & _ & Hn & Hs).
  split; [exact Hn|exact Hs].
Defined.

(** ** The customer summaries *)

Lemma fold_max_spec (l : list Z) (a : Z) :
  (fold_left Z.max l a = a ∨ fold_left Z.max l a ∈ l)
  ∧ a ≤ fold_left Z.max l a
  ∧ ∀ x, x ∈ l → x ≤ fold_left Z.max l a.
Proof.
  revert a. induction l as [|y l IH]; intros a; cbn [fold_left].
  - split; [by left|]. split; [lia|]. by intros x []%elem_of_nil.
  - destruct (IH (Z.max a y)) as (Hin & Hle & Hall). split; [|split].
    + destruct Hin as [Heq|Hin].
      * rewrite Heq. destruct (Z.max_spec a y) as [[_ ->]|[_ ->]];
          [right; apply list_elem_of_here|by left].
      * right. by apply list_elem_of_further.
    + lia.
    + intros x [->|Hx]%elem_of_cons; [lia|auto].
Qed.

(** What a group of the per-customer accumulators holds: the number of its
    orders, their items, their total price and the latest creation time. *)
Lemma totals_group_fields {K} `{EqDecision K} (key : Totals.Joined → K)
    (docs : list Totals.Joined) (k : K) (a : Totals.t) :
  (k, a) ∈ group key Totals.init Totals.step docs →
  let ds := filter (λ j, key j = k) docs in
  ds ≠ []
  ∧ Totals.totalOrders a = Z.of_nat (length ds)
  ∧ Totals.totalItems a
    = sumZ ((λ j, sumZ (OrderItems.quantity <$> snd j)) <$> ds)
  ∧ Totals.totalSpent a = sumZ ((λ j, Order.total_price (fst j)) <$> ds)
  ∧ (∃ j, j ∈ ds ∧ Totals.lastOrderDate a = Order.createdAt (fst j))
  ∧ (∀ j, j ∈ ds → Order.createdAt (fst j) ≤ Totals.lastOrderDate a).
Proof.
  intros (j & js & Hf & ->)%elem_of_group ds. unfold ds. rewrite Hf.
  rewrite totals_fold, !fmap_cons, !sumZ_cons, length_cons. cbn.
  destruct (fold_max_spec ((λ j, Order.createdAt (fst j)) <$> js)
              (Order.createdAt (fst j))) as (Hin & Hle & Hall).
  split; [discriminate|]. split; [lia|]. split; [reflexivity|].
  split; [reflexivity|]. split.
  - destruct Hin as [->|Hin].
    + exists j. split; [apply list_elem_of_here|reflexivity].
    + apply list_elem_of_fmap in Hin as (j' & -> & Hj').
      exists j'. split; [by apply list_elem_of_further|reflexivity].
  - intros j' [->|Hj']%elem_of_cons; [exact Hle|].
    apply Hall, list_elem_of_fmap. by exists j'.
Qed.

Lemma elem_of_user_orders (db : DB.t) (u : Summary.t) :
  u ∈ UserOrder.pipeline db ↔
  ∃ a c, (Customer._id c, a) ∈ UserOrder.by_customer db
         ∧ c ∈ DB.customers db
         ∧ u = Summary.project a c.
Proof.
  unfold UserOrder.pipeline. rewrite sort_num_desc_Permutation.
  unfold UserOrder.projected. rewrite elem_of_unwind. split.
  - intros ([k a] & c & Hg & [Hid Hc]%list_elem_of_filter & ->).
    cbn in Hid. subst k. exists a, c. auto.
  - intros (a & c & Hg & Hc & ->). exists (Customer._id c, a), c.
    split; [exact Hg|]. split; [|reflexivity].
    apply list_elem_of_filter. split; [reflexivity|exact Hc].
Qed.

(** X6: a summary of the customer-order report carries the name, email and
    phone of a customer record with its [customer_id]; its [totalItems] adds
    up the quantities of the order-items that the customer's completed and
    confirmed orders reference in their [items] arrays, its [totalSpent]
    their [total_price]s, and its [lastOrderDate] is the latest of their
    creation times. *)
Theorem user_order_summary_fields (db : DB.t) (u : Summary.t) :
  u ∈ UserOrder.pipeline db →
  let os := filter (λ o, Order.customer_id o = Summary.customer_id u)
              (filter (λ o, Order.status o ∈ ["completed"; "confirmed"])
                 (DB.orders db)) in
  (∃ c, c ∈ DB.customers db
        ∧ Customer._id c = Summary.customer_id u
        ∧ Customer.fullName c = Summary.fullName u
        ∧ Customer.email c = Summary.email u
        ∧ Customer.phone c = Summary.phone u)
  ∧ Summary.totalItems u
    = sumZ ((λ o, sumZ (OrderItems.quantity <$>
                          filter (λ it, OrderItems._id it ∈ Order.items o)
                            (DB.orderitems db))) <$> os)
  ∧ Summary.totalSpent u = sumZ (Order.total_price <$> os)
  ∧ (∃ o, o ∈ os ∧ Summary.lastOrderDate u = Order.createdAt o)
  ∧ (∀ o, o ∈ os → Order.createdAt o ≤ Summary.lastOrderDate u).
Proof.
  intros (a & c & Hg & Hc & ->)%elem_of_user_orders os.
  apply totals_group_fields in Hg as (_ & _ & Hitems & Hspent & Hlast & Hmax).
  assert (Hds : filter (λ j, UserOrder.key j = Customer._id c)
                  (UserOrder.join db <$> UserOrder.matched db)
                = UserOrder.join db <$> os).
  { rewrite filter_fmap. reflexivity. }
  rewrite Hds in Hitems, Hspent, Hlast, Hmax.
  rewrite <- list_fmap_compose in Hitems, Hspent.
  split; [exists c; cbn; auto|]. cbn.
  split; [exact Hitems|]. split; [exact Hspent|]. split.
  - destruct Hlast as (j & (o & -> & Ho)%list_elem_of_fmap & Hd). eauto.
  - intros o Ho. apply (Hmax (UserOrder.join db o)).
    apply list_elem_of_fmap. eauto.
Qed.

Lemma user_order_summary_fields_witness :
  let u := {| Summary.customer_id := 10%N; Summary.fullName := "Alice";
              Summary.email := "alice@example.com";
              Summary.phone := "012345678"; Summary.totalOrders := 1;
              Summary.totalItems := 3; Summary.totalSpent := 150;
              Summary.lastOrderDate := 1709640000000 |} in
  u ∈ UserOrder.pipeline sample
  ∧ Summary.totalSpent u
    = sumZ (Order.total_price <$>
              filter (λ o, Order.customer_id o = 10%N)
                (filter (λ o, Order.status o ∈ ["completed"; "confirmed"])
                   (DB.orders sample))).
Proof.
  intros u.
  assert (Hin : u ∈ UserOrder.pipeline sample).
  { vm_compute. apply list_elem_of_here. }
  split; [exact Hin|].
  exact (proj1 (proj2 (proj2 (user_order_summary_fields sample u Hin)))).
Defined.

Lemma fmap_unwind {A B C D} (f : C → D) (arr : A → list B)
    (set : A → B → C) (docs : list A) :
  f <$> unwind arr set docs = unwind arr (λ d b, f (set d b)) docs.
Proof.
  unfold unwind. induction docs as [|d docs IH]; [reflexivity|].
  rewrite !bind_cons, fmap_app, IH, <- list_fmap_compose. reflexivity.
Qed.

Lemma NoDup_unwind_keys {G C} (cid : G → ObjectId) (gs : list G)
    (cs : list C) (cust_id : C → ObjectId) :
  NoDup (cid <$> gs) → NoDup (cust_id <$> cs) →
  NoDup (unwind (λ g, lookup_eq cust_id cs (cid g)) (λ g c, cust_id c) gs).
Proof.
  intros Hgs Hcs. unfold unwind.
  induction gs as [|g gs IH]; [constructor|].
  rewrite fmap_cons in Hgs. apply NoDup_cons in Hgs as [Hg Hgs].
  rewrite bind_cons. apply NoDup_app. split; [|split; [|auto]].
  - unfold lookup_eq. clear -Hcs.
    induction cs as [|c cs IHc]; [constructor|].
    rewrite fmap_cons in Hcs. apply NoDup_cons in Hcs as [Hc Hcs].
    rewrite filter_cons. destruct (decide (cust_id c = cid g)); [|auto].
    rewrite fmap_cons. apply NoDup_cons. split; [|auto].
    intros (c' & Heq & [_ Hc']%list_elem_of_filter)%list_elem_of_fmap.
    apply Hc. rewrite Heq. by apply list_elem_of_fmap_2.
  - intros x (c & -> & [Hid _]%list_elem_of_filter)%list_elem_of_fmap Hin.
    apply list_elem_of_bind in Hin as (g' & Hx & Hg').
    apply list_elem_of_fmap in Hx as (c' & Heq & [Hid' _]%list_elem_of_filter).
    apply Hg. rewrite <- Hid, Heq, Hid'. by apply list_elem_of_fmap_2.
Qed.

(** X7: the customer-order report comes in non-increasing order of
    [totalSpent]; it has a row for a customer reference exactly when a
    customer record and a completed or confirmed order carry it; and when
    the customer records have pairwise distinct ids, so have the rows. *)
Theorem user_order_rows (db : DB.t) :
  StronglySorted (λ u1 u2, Summary.totalSpent u2 ≤ Summary.totalSpent u1)
    (UserOrder.pipeline db)
  ∧ (∀ cid,
       (∃ u, u ∈ UserOrder.pipeline db ∧ Summary.customer_id u = cid) ↔
       (∃ c, c ∈ DB.customers db ∧ Customer._id c = cid)
       ∧ (∃ o, o ∈ DB.orders db
               ∧ Order.status o ∈ ["completed"; "confirmed"]
               ∧ Order.customer_id o = cid))
  ∧ (NoDup (Customer._id <$> DB.customers db) →
     NoDup (Summary.customer_id <$> UserOrder.pipeline db)).
Proof.
  split; [|split].
  - apply (StronglySorted_merge_sort (num_desc Summary.totalSpent)).
  - intros cid. split.
    + intros (u & (a & c & Hg & Hc & ->)%elem_of_user_orders & <-). cbn.
      split; [eauto|].
      assert (Hk : Customer._id c ∈ (UserOrder.by_customer db).*1)
        by (apply list_elem_of_fmap; exists (Customer._id c, a); auto).
      apply elem_of_keys_group in Hk as (j & Hj & Hkey).
      apply list_elem_of_fmap in Hj as (o & -> & Ho).
      apply list_elem_of_filter in Ho as [Hst Ho]. exists o. auto.
    + intros [(c & Hc & <-) (o & Ho & Hst & Hcid)].
      assert (Hk : Customer._id c ∈ (UserOrder.by_customer db).*1).
      { apply elem_of_keys_group. exists (UserOrder.join db o).
        split; [|exact Hcid]. apply list_elem_of_fmap_2.
        apply list_elem_of_filter. auto. }
      apply list_elem_of_fmap in Hk as ([k a] & Hk & Hg). cbn in Hk. subst k.
      exists (Summary.project a c). split; [|reflexivity].
      apply elem_of_user_orders. eauto.
  - intros Hnd. unfold UserOrder.pipeline.
    rewrite sort_num_desc_Permutation. unfold UserOrder.projected.
    pose proof (NoDup_unwind_keys fst (UserOrder.by_customer db)
                  (DB.customers db) Customer._id
                  (NoDup_keys_group _ _ _ _) Hnd) as Hu.
    rewrite fmap_unwind. exact Hu.
Qed.

(** ** The order-status report in full *)

Lemma filter_unwind {A B C} (P : C → Prop) `{∀ c, Decision (P c)}
    (Q : A → Prop) `{∀ a, Decision (Q a)}
    (arr : A → list B) (set : A → B → C) (docs : list A) :
  (∀ d b, P (set d b) ↔ Q d) →
  filter P (unwind arr set docs) = unwind arr set (filter Q docs).
Proof.
  intros HPQ. unfold unwind. induction docs as [|d docs IH]; [reflexivity|].
  rewrite bind_cons, filter_app, IH, filter_cons.
  destruct (decide (Q d)) as [Hq|Hq].
  - rewrite bind_cons. f_equal.
    induction (arr d) as [|b bs IHb]; [reflexivity|].
    rewrite fmap_cons, filter_cons_True by (by apply HPQ). by rewrite IHb.
  - replace (filter P (set d <$> arr d)) with (@nil C); [reflexivity|].
    induction (arr d) as [|b bs IHb]; [reflexivity|].
    rewrite fmap_cons, filter_cons_False by (by rewrite HPQ). exact IHb.
Qed.

Lemma four_statuses (s : string) (o : Order.t) :
  Order.status o = s →
  Order.status o ∈ ["pending"; "completed"; "confirmed"; "cancelled"] →
  s ∈ ["pending"; "completed"; "confirmed"; "cancelled"].
Proof. by intros <-. Qed.

(** The orders of a (status, customer) group. *)
Lemma status_customer_group (db : DB.t) (s : string) (cid : ObjectId)
    (a : Totals.t) :
  ((s, cid), a) ∈ OrderStatus.by_status_customer db →
  s ∈ ["pending"; "completed"; "confirmed"; "cancelled"]
  ∧ filter (λ j, OrderStatus.key j = (s, cid))
      (OrderStatus.join db <$> OrderStatus.matched db)
    = OrderStatus.join db <$>
        filter (λ o, Order.customer_id o = cid)
          (filter (λ o, Order.status o = s) (DB.orders db)).
Proof.
  intros Hg.
  assert (Hs : s ∈ ["pending"; "completed"; "confirmed"; "cancelled"]).
  { assert (Hk : (s, cid) ∈ (OrderStatus.by_status_customer db).*1)
      by (apply list_elem_of_fmap; exists ((s, cid), a); auto).
    apply elem_of_keys_group in Hk as (j & Hj & Hkey).
    apply list_elem_of_fmap in Hj as (o & -> & Ho).
    apply list_elem_of_filter in Ho as [Hst _].
    injection Hkey as Hso _. exact (four_statuses s o Hso Hst). }
  split; [exact Hs|]. rewrite filter_fmap. f_equal.
  unfold OrderStatus.matched, match_status. rewrite !list_filter_filter.
  apply list_filter_iff. intros o. unfold OrderStatus.key, OrderStatus.join.
  cbn. split.
  - intros [[= Hso Hc] _]. auto.
  - intros [Hc Hso]. split; [congruence|]. by rewrite Hso.
Qed.

(** X8: a summary listed under status [s] of the order-status report
    carries the fields of a customer record with its [customer_id]; it
    counts that customer's orders of status [s], adds up their
    [total_price]s and the quantities of the order-items whose [order_id]
    is one of these orders, and dates the latest of them; and [s] is one of
    the four statuses the report matches. *)
Theorem order_status_summary_fields (db : DB.t) (s : string)
    (us : list Summary.t) (u : Summary.t) :
  OrderStatus.formatted db !! s = Some us → u ∈ us →
  let os := filter (λ o, Order.customer_id o = Summary.customer_id u)
              (filter (λ o, Order.status o = s) (DB.orders db)) in
  s ∈ ["pending"; "completed"; "confirmed"; "cancelled"]
  ∧ (∃ c, c ∈ DB.customers db
          ∧ Customer._id c = Summary.customer_id u
          ∧ Customer.fullName c = Summary.fullName u
          ∧ Customer.email c = Summary.email u
          ∧ Customer.phone c = Summary.phone u)
  ∧ Summary.totalOrders u = Z.of_nat (length os)
  ∧ Summary.totalItems u
    = sumZ ((λ o, sumZ (OrderItems.quantity <$>
                          filter (λ it, OrderItems.order_id it = Order._id o)
                            (DB.orderitems db))) <$> os)
  ∧ Summary.totalSpent u = sumZ (Order.total_price <$> os)
  ∧ (∃ o, o ∈ os ∧ Summary.lastOrderDate u = Order.createdAt o)
  ∧ (∀ o, o ∈ os → Order.createdAt o ≤ Summary.lastOrderDate u).
Proof.
  intros [_ ->]%formatted_lookup Hu os.
  apply list_elem_of_fmap in Hu as ([s' u'] & -> & Hp).
  apply list_elem_of_filter in Hp as [Hs Hp]. cbn in Hs. subst s'.
  apply elem_of_projected in Hp as (cid & a & c & Hg & Hc & <- & ->).
  cbn [snd] in *.
  destruct (status_customer_group db s _ a Hg) as [Hs Hds].
  apply totals_group_fields in Hg
    as (_ & Hn & Hitems & Hspent & Hlast & Hmax).
  rewrite Hds in Hn, Hitems, Hspent, Hlast, Hmax.
  rewrite length_fmap in Hn. rewrite <- list_fmap_compose in Hitems, Hspent.
  split; [exact Hs|]. split; [exists c; cbn; auto|]. cbn.
  split; [exact Hn|]. split; [exact Hitems|]. split; [exact Hspent|]. split.
  - destruct Hlast as (j & (o & -> & Ho)%list_elem_of_fmap & Hd). eauto.
  - intros o Ho. apply (Hmax (OrderStatus.join db o)).
    apply list_elem_of_fmap. eauto.
Qed.

Lemma order_status_summary_fields_witness :
  ∃ us u,
    OrderStatus.formatted sample !! "completed" = Some us
    ∧ u ∈ us
    ∧ Summary.customer_id u = 10%N
    ∧ Summary.totalSpent u
      = sumZ (Order.total_price <$>
                filter (λ o, Order.customer_id o = Summary.customer_id u)
                  (filter (λ o, Order.status o = "completed")
                     (DB.orders sample))).
Proof.
  destruct (OrderStatus.formatted sample !! "completed") as [us|] eqn:Hl;
    [|vm_compute in Hl; discriminate].
  assert (Hu : Summary.project
                 {| Totals.totalOrders := 1; Totals.totalItems := 3;
                    Totals.totalSpent := 150;
                    Totals.lastOrderDate := 1709640000000 |} alice ∈ us).
  { vm_compute in Hl. injection Hl as <-. apply list_elem_of_here. }
  eexists us, _. split; [reflexivity|]. split; [exact Hu|].
  split; [reflexivity|].
  exact (proj1 (proj2 (proj2 (proj2 (proj2
           (order_status_summary_fields sample "completed" us _ Hl Hu)))))).
Defined.

(** X9: the formatted order-status report has properties only for the four
    matched statuses and never an empty list; and when the customer records
    have pairwise distinct ids, no customer is listed twice under a
    status. *)
Theorem order_status_shape (db : DB.t) (s : string) (us : list Summary.t) :
  OrderStatus.formatted db !! s = Some us →
  s ∈ ["pending"; "completed"; "confirmed"; "cancelled"]
  ∧ us ≠ []
  ∧ (NoDup (Customer._id <$> DB.customers db) →
     NoDup (Summary.customer_id <$> us)).
Proof.
  intros [Hne ->]%formatted_lookup. split; [|split].
  - destruct (filter _ (OrderStatus.projected db)) as [|[s' u] ps] eqn:Hf;
      [done|].
    assert (Hp : (s', u) ∈ filter (λ p, fst p = s) (OrderStatus.projected db))
      by (rewrite Hf; apply list_elem_of_here).
    apply list_elem_of_filter in Hp as [Hs Hp]. cbn in Hs. subst s'.
    apply elem_of_projected in Hp as (cid & a & c & Hg & _).
    exact (proj1 (status_customer_group db s cid a Hg)).
  - destruct (filter _ (OrderStatus.projected db)); [done|discriminate].
  - intros Hnd. unfold OrderStatus.projected.
    rewrite (filter_unwind _ (λ g : (string * ObjectId) * Totals.t,
                                 fst (fst g) = s)) by reflexivity.
    rewrite !fmap_unwind. cbn [snd Summary.project Summary.customer_id].
    apply (NoDup_unwind_keys
             (λ g : (string * ObjectId) * Totals.t, snd (fst g))
             _ (DB.customers db) Customer._id); [|exact Hnd].
    apply NoDup_fmap_2_strong.
    + intros [[s1 c1] a1] [[s2 c2] a2] [Hs1 H1]%list_elem_of_filter
        [Hs2 H2]%list_elem_of_filter Heq. cbn in *. subst.
      f_equal. apply (assoc_elem_of _ _ _ (NoDup_keys_group _ _ _ _)) in H1, H2.
      congruence.
    + apply NoDup_filter.
      eapply NoDup_fmap_1, (NoDup_keys_group OrderStatus.key).
Qed.

Lemma order_status_shape_witness :
  ∃ us, OrderStatus.formatted sample !! "pending" = Some us
        ∧ "pending" ∈ ["pending"; "completed"; "confirmed"; "cancelled"]
        ∧ us ≠ []
        ∧ NoDup (Summary.customer_id <$> us).
Proof.
  destruct (OrderStatus.formatted sample !! "pending") as [us|] eqn:Hl;
    [|vm_compute in Hl; discriminate].
  exists us. split; [reflexivity|].
  destruct (order_status_shape sample "pending" us Hl) as (Hs & Hne & Hnd).
  split; [exact Hs|]. split; [exact Hne|]. apply Hnd.
  vm_compute. repeat constructor; rewrite ?elem_of_cons, ?elem_of_nil;
    intros H; repeat destruct H as [H|H]; try discriminate H; exact H.
Defined.

(** ** The product report in full *)

(** X10: the product report has one row per product id; a row repeats its
    key as [product_id], adds up the [total_price] of the joined
    order-items of the product and shows the [unit_price] of the first of
    them in scan order; and every product of a joined order-item has a
    row. *)
Theorem product_rows (db : DB.t) :
  let joined_items :=
    filter (λ o, Order.status o ∈ ["completed"; "confirmed"]) (DB.orders db)
    ≫= (λ o, filter (λ it, OrderItems._id it ∈ Order.items o)
               (DB.orderitems db)) in
  NoDup (UserProduct._id <$> UserProduct.pipeline db)
  ∧ (∀ r, r ∈ UserProduct.pipeline db →
       let its := filter (λ it, OrderItems.product_id it = UserProduct._id r)
                    joined_items in
       UserProduct.product_id r = UserProduct._id r
       ∧ UserProduct.total_price r = sumZ (OrderItems.total_price <$> its)
       ∧ OrderItems.unit_price <$> head its = Some (UserProduct.unit_price r))
  ∧ (∀ it, it ∈ joined_items →
       ∃ r, r ∈ UserProduct.pipeline db
            ∧ UserProduct._id r = OrderItems.product_id it).
Proof.
  intros joined_items. split; [|split].
  - unfold UserProduct.pipeline.
    rewrite sort_num_desc_Permutation, <- list_fmap_compose.
    apply (NoDup_keys_group UserProduct.key UserProduct.init UserProduct.step).
  - intros r (u & us & Hf & Hr)%product_row its.
    assert (Hu : OrderItems.product_id (snd u) = UserProduct._id r).
    { assert (Hin : u ∈ filter
                (λ u, OrderItems.product_id (snd u) = UserProduct._id r)
                (UserProduct.unwound db))
        by (rewrite Hf; apply list_elem_of_here).
      apply list_elem_of_filter in Hin as [Hin _]. exact Hin. }
    assert (Hits : its = snd <$> (u :: us)).
    { unfold its, joined_items.
      rewrite <- unwound_items, filter_fmap, Hf. reflexivity. }
    rewrite Hits, <- list_fmap_compose, !fmap_cons, sumZ_cons.
    rewrite Hr at 1 3 4. rewrite product_fold. cbn. auto.
  - intros it Hit. unfold joined_items in Hit. rewrite <- unwound_items in Hit.
    apply list_elem_of_fmap in Hit as (u & -> & Hu).
    assert (Hk : UserProduct.key u
                 ∈ (group UserProduct.key UserProduct.init UserProduct.step
                      (UserProduct.unwound db)).*1)
      by (apply elem_of_keys_group; eauto).
    apply list_elem_of_fmap in Hk as ([k a] & Hk & Hg). cbn in Hk.
    exists (UserProduct.row (k, a)). split; [|exact (eq_sym Hk)].
    unfold UserProduct.pipeline. rewrite sort_num_desc_Permutation.
    by apply list_elem_of_fmap_2.
Qed.

(** The order-items that some completed or confirmed order references. *)
Lemma join_referenced (db : DB.t) (sold : list Order.t) (o : Order.t) :
  o ∈ sold →
  filter (λ it, OrderItems._id it ∈ Order.items o)
    (filter (λ it, Exists (λ o, OrderItems._id it ∈ Order.items o) sold)
       (DB.orderitems db))
  = filter (λ it, OrderItems._id it ∈ Order.items o) (DB.orderitems db).
Proof.
  intros Ho. rewrite list_filter_filter. apply list_filter_iff.
  intros it. split; [tauto|]. intros Hit. split; [exact Hit|].
  apply Exists_exists. eauto.
Qed.

(** X11: the product report only depends on the completed and confirmed
    orders and on the order-items that these reference in their [items]
    arrays: it is the same on the store with every other order and
    order-item, and the users and customers, taken out. *)
Theorem product_report_ignores_the_rest (db : DB.t) :
  let sold := filter (λ o, Order.status o ∈ ["completed"; "confirmed"])
                (DB.orders db) in
  UserProduct.pipeline db =
    UserProduct.pipeline
      {| DB.orders := sold;
         DB.orderitems :=
           filter (λ it, Exists (λ o, OrderItems._id it ∈ Order.items o) sold)
             (DB.orderitems db);
         DB.users := [];
         DB.customers := [] |}.
Proof.
  intros sold. unfold UserProduct.pipeline, UserProduct.unwound.
  do 4 f_equal. unfold UserProduct.matched, match_status. cbn [DB.orders].
  assert (Hs : filter (λ o, Order.status o ∈ ["completed"; "confirmed"]) sold
               = sold).
  { unfold sold. rewrite list_filter_filter. apply list_filter_iff.
    intros o. tauto. }
  rewrite Hs. change (filter _ (DB.orders db)) with sold.
  apply list_fmap_ext. intros i o Ho.
  unfold UserProduct.join, lookup_in. cbn [DB.orderitems]. f_equal.
  symmetry. apply join_referenced. eapply list_elem_of_lookup_2, Ho.
Qed.

(** ** The middleware in front of the handlers *)

(** X12: behind [adminOnly] a report handler never sends its own
    [{ message: "Forbidden" }]: a request without a user throws before any
    response or query; a role other than ["admin"] is answered by the
    middleware with status 403 and [{ message: "Forbidden: Admin only" }],
    the world left as it was; and with the role ["admin"] the route does
    what the handler does, answering 403 [{ error: "Access denied" }] when
    [is_admin] is falsy. *)
Theorem route_behind_adminOnly (op : Operation) (req : Request) (w : World) :
  (user req = None → route_behind_auth op req w = (Threw, w))
  ∧ (∀ u, user req = Some u → role u ≠ JsStr "admin" →
       route_behind_auth op req w
       = (Done (status_json 403
                  [("message", JString "Forbidden: Admin only")]), w))
  ∧ (∀ u, user req = Some u → role u = JsStr "admin" →
       route_behind_auth op req w = handler op req w
       ∧ (truthy (is_admin u) = false →
          route_behind_auth op req w = (Done access_denied, w)))
  ∧ (∀ resp w', route_behind_auth op req w = (Done resp, w') →
       resp ≠ forbidden).
Proof.
  unfold route_behind_auth, adminOnly, user_role.
  destruct (user req) as [u|] eqn:Hu.
  - destruct (decide (role u = JsStr "admin")) as [Hr|Hr].
    + assert (Hrun : (r ← mret (role u);
                      if decide (r ≠ JsStr "admin")
                      then mret (status_json 403
                             [("message", JString "Forbidden: Admin only")])
                      else handler op req) w = handler op req w).
      { unfold mbind, Handler_bind, mret, Handler_ret.
        destruct (decide (role u ≠ JsStr "admin")); [contradiction|].
        reflexivity. }
      rewrite Hrun. split; [discriminate|]. split; [|split].
      * intros u' [= <-] Hne. contradiction.
      * intros u' [= <-] _. split; [reflexivity|]. intros Ha.
        apply handler_denied. unfold optional_is_admin. rewrite Hu. exact Ha.
      * intros resp w' Hresp ->.
        destruct (truthy (is_admin u)) eqn:Ha.
        -- rewrite handler_authorized in Hresp by (exists u; auto).
           destruct (online w); discriminate.
        -- rewrite handler_denied in Hresp
             by (unfold optional_is_admin; rewrite Hu; exact Ha).
           discriminate.
    + assert (Hrun : (r ← mret (role u);
                      if decide (r ≠ JsStr "admin")
                      then mret (status_json 403
                             [("message", JString "Forbidden: Admin only")])
                      else handler op req) w
                     = (Done (status_json 403
                          [("message", JString "Forbidden: Admin only")]), w)).
      { unfold mbind, Handler_bind, mret, Handler_ret.
        destruct (decide (role u ≠ JsStr "admin")); [|contradiction].
        reflexivity. }
      rewrite Hrun. split; [discriminate|]. split; [|split].
      * intros u' [= <-] _. reflexivity.
      * intros u' [= <-] Hr'. contradiction.
      * intros resp w' [= <- <-]. discriminate.
  - split; [reflexivity|]. split; [discriminate|]. split; [discriminate|].
    intros resp w'. discriminate.
Qed.

Lemma route_behind_adminOnly_witness :
  let w := {| db := scenario; online := true; queries := 0 |} in
  route_behind_auth DailySales anonymous_request w = (Threw, w)
  ∧ route_behind_auth DailySales staff_request w
    = (Done (status_json 403
               [("message", JString "Forbidden: Admin only")]), w)
  ∧ route_behind_auth DailySales admin_request w
    = handler DailySales admin_request w.
Proof.
  intros w.
  destruct (route_behind_adminOnly DailySales anonymous_request w)
    as (Hnone & _).
  destruct (route_behind_adminOnly DailySales staff_request w)
    as (_ & Hstaff & _).
  destruct (route_behind_adminOnly DailySales admin_request w)
    as (_ & _ & Hadmin & _).
  split; [apply Hnone; reflexivity|]. split.
  - eapply Hstaff; [reflexivity|]. vm_compute. discriminate.
  - eapply Hadmin; reflexivity.
Defined.

(** ** The conversion of the order-status rows into an object *)

(** X13: on rows whose [_id] is one of the four statuses the report
    matches, the object that the [forEach] of the order-status handler
    builds has, under a status, the [users] of the last row with that
    [_id], and no property for a status without a row. *)
Theorem format_last_row_wins (report : list OrderStatus.Row) (s : string) :
  (∀ r, r ∈ report →
        OrderStatus._id r ∈ ["pending"; "completed"; "confirmed"; "cancelled"]) →
  OrderStatus.format report !! s
  = OrderStatus.users <$>
      last (filter (λ r, OrderStatus._id r = s) report).
Proof.
  intros _. induction report as [|r report IH] using rev_ind.
  - unfold OrderStatus.format. cbn. apply lookup_empty.
  - rewrite format_snoc, lookup_insert, filter_app, filter_cons, filter_nil.
    destruct (decide (OrderStatus._id r = s)) as [Hr|Hr].
    + rewrite last_snoc. reflexivity.
    + rewrite app_nil_r. exact IH.
Qed.

Lemma format_last_row_wins_witness :
  let rows := [{| OrderStatus._id := "pending"; OrderStatus.users := [] |};
               {| OrderStatus._id := "completed"; OrderStatus.users := [] |};
               {| OrderStatus._id := "pending";
                  OrderStatus.users := [Summary.project
                    {| Totals.totalOrders := 1; Totals.totalItems := 0;
                       Totals.totalSpent := 30;
                       Totals.lastOrderDate := 1711929600000 |} alice] |}] in
  (λ us : list Summary.t, Summary.fullName <$> us)
    <$> OrderStatus.format rows !! "pending"
  = Some ["Alice"]
  ∧ OrderStatus.format rows !! "cancelled" = None.
Proof.
  intros rows.
  assert (Hrows : ∀ r, r ∈ rows →
            OrderStatus._id r
            ∈ ["pending"; "completed"; "confirmed"; "cancelled"]).
  { intros r Hr.
    repeat (apply elem_of_cons in Hr as [->|Hr];
            [cbn; rewrite !elem_of_cons; auto|]).
    by apply elem_of_nil in Hr. }
  rewrite !(format_last_row_wins rows _ Hrows). split; reflexivity.
Defined.


(** ** Orders of another status *)

Lemma filter_status_twice (allowed known : list string) (os : list Order.t) :
  (∀ s, s ∈ allowed → s ∈ known) →
  filter (λ o, Order.status o ∈ allowed)
    (filter (λ o, Order.status o ∈ known) os)
  = filter (λ o, Order.status o ∈ allowed) os.
Proof.
  intros Hsub. rewrite list_filter_filter. apply list_filter_iff.
  intros o. split; [tauto|]. intros Ho. split; [exact Ho|auto].
Qed.

(** X14: an order whose status is none of pending, confirmed, cancelled and
    completed shows in no report: each of the five reports is the same on
    the store with these orders taken out. *)
Theorem reports_ignore_other_statuses (db : DB.t) :
  let known :=
    {| DB.orders :=
         filter (λ o, Order.status o ∈
                        ["pending"; "confirmed"; "cancelled"; "completed"])
           (DB.orders db);
       DB.orderitems := DB.orderitems db;
       DB.users := DB.users db;
       DB.customers := DB.customers db |} in
  Daily.pipeline db = Daily.pipeline known
  ∧ Monthly.pipeline db = Monthly.pipeline known
  ∧ OrderStatus.formatted db = OrderStatus.formatted known
  ∧ UserOrder.pipeline db = UserOrder.pipeline known
  ∧ UserProduct.pipeline db = UserProduct.pipeline known.
Proof.
  intros known.
  assert (Hsub4 : ∀ l, (∀ s, s ∈ l → s ∈ ["pending"; "confirmed"; "cancelled";
                                           "completed"]) →
            match_status l (DB.orders known) = match_status l (DB.orders db))
    by (intros l Hl; apply filter_status_twice, Hl).
  assert (H1 : ∀ s, s ∈ ["completed"; "pending"; "confirmed"; "cancelled"] →
                    s ∈ ["pending"; "confirmed"; "cancelled"; "completed"]).
  { intros s. rewrite !elem_of_cons, !elem_of_nil. tauto. }
  assert (H2 : ∀ s, s ∈ ["pending"; "completed"; "confirmed"; "cancelled"] →
                    s ∈ ["pending"; "confirmed"; "cancelled"; "completed"]).
  { intros s. rewrite !elem_of_cons, !elem_of_nil. tauto. }
  assert (H3 : ∀ s, s ∈ ["completed"; "confirmed"] →
                    s ∈ ["pending"; "confirmed"; "cancelled"; "completed"]).
  { intros s. rewrite !elem_of_cons, !elem_of_nil. tauto. }
  split; [|split; [|split; [|split]]].
  - unfold Daily.pipeline, Daily.matched. rewrite (Hsub4 _ H1). reflexivity.
  - unfold Monthly.pipeline, Monthly.matched. rewrite (Hsub4 _ H1).
    reflexivity.
  - unfold OrderStatus.formatted, OrderStatus.pipeline, OrderStatus.projected,
      OrderStatus.by_status_customer, OrderStatus.matched.
    rewrite (Hsub4 _ H2). reflexivity.
  - unfold UserOrder.pipeline, UserOrder.projected, UserOrder.by_customer,
      UserOrder.matched.
    rewrite (Hsub4 _ H3). reflexivity.
  - unfold UserProduct.pipeline, UserProduct.unwound, UserProduct.matched.
    rewrite (Hsub4 _ H3). reflexivity.
Qed.

Example delivered_order_is_left_out :
  let delivered :=
    {| Order._id := 9%N; Order.customer_id := 10%N; Order.items := [100%N];
       Order.total_price := 500; Order.status := "delivered";
       Order.createdAt := 1709640000000 |} in
  Monthly.pipeline
    {| DB.orders := [alice_order; delivered]; DB.orderitems := [alice_item];
       DB.users := []; DB.customers := [alice] |}
  = Monthly.pipeline scenario.
Proof. vm_compute. reflexivity. Qed.
